(** * NASDAQ ITCH 5.0 parser: framing, decoding, categorisation, chunked flush

    A shallow embedding of [parser.py] (class [ITCHParser]).  Byte strings
    are [list byte]; Python integers are [Z]; a [dict] literal is an
    association list in insertion order; exceptions are an explicit error
    monad; the price division is IEEE binary64, as in the source. *)

From Stdlib Require Import ZArith List Bool Lia.
From Stdlib Require Import Strings.String Strings.Ascii Strings.Byte.
From Stdlib Require Import Floats.PrimFloat.
From Stdlib Require Import DecimalString DecimalN.
Import ListNotations.

Open Scope string_scope.
Open Scope list_scope.
Open Scope Z_scope.

(** ** Python values, exceptions *)

Definition bytes := list byte.

Inductive exn : Set :=
| StructError        (* struct.error: buffer of the wrong size *)
| IndexError         (* index out of range *)
| KeyError           (* missing dict key *)
| ZeroDivisionError. (* integer modulo by zero *)

Inductive result (A : Type) : Type :=
| Ok (a : A)
| Raise (e : exn).
Arguments Ok {A} a.
Arguments Raise {A} e.

Definition bind {A B} (m : result A) (k : A -> result B) : result B :=
  match m with
  | Ok a => k a
  | Raise e => Raise e
  end.

Notation "x <- m ;; k" := (bind m (fun x => k))
  (at level 61, m at next level, right associativity).

Inductive value : Type :=
| VInt (z : Z)
| VStr (s : string)
| VFloat (f : float).

(** A decoded record: the dict literal a routine returns. *)
Definition record := list (string * value).

(** [d.get(k)] on a dict kept as an association list. *)
Fixpoint dict_get {V : Type} (k : string) (d : list (string * V)) : option V :=
  match d with
  | [] => None
  | (k', v) :: d' => if String.eqb k k' then Some v else dict_get k d'
  end.

Definition get (k : string) (r : record) : option value := dict_get k r.

(** ** Field decoder *)

Definition byte_val (b : byte) : Z := Z.of_N (Byte.to_N b).

(** [message[a:b]] for [0 <= a <= b]: never raises, may come back short. *)
Definition slice (a b : nat) (m : bytes) : bytes := firstn (b - a) (skipn a m).

(** [message[i]] *)
Definition getitem (m : bytes) (i : nat) : result byte :=
  match nth_error m i with
  | Some b => Ok b
  | None => Raise IndexError
  end.

(** [int.from_bytes(bs, 'big')]: total, the empty string gives 0. *)
Definition from_bytes_big (bs : bytes) : Z :=
  fold_left (fun acc b => acc * 256 + byte_val b) bs 0.

(** [struct.unpack('>H' | '>I' | '>Q', bs)[0]]: the buffer must have
    exactly the size of the format. *)
Definition unpack_be (size : nat) (bs : bytes) : result Z :=
  if Nat.eqb (List.length bs) size then Ok (from_bytes_big bs)
  else Raise StructError.

Definition unpack_H : bytes -> result Z := unpack_be 2.
Definition unpack_I : bytes -> result Z := unpack_be 4.
Definition unpack_Q : bytes -> result Z := unpack_be 8.

(** [chr(b)] for a byte value *)
Definition chr (b : byte) : string := String (ascii_of_byte b) EmptyString.

Fixpoint lstrip_nul (bs : bytes) : bytes :=
  match bs with
  | [] => []
  | b :: t => if Byte.eqb b x00 then lstrip_nul t else bs
  end.

Definition rstrip_nul (bs : bytes) : bytes := rev (lstrip_nul (rev bs)).

(** [bs.strip(b'\x00')]: NUL bytes are removed at both ends. *)
Definition strip_nul (bs : bytes) : bytes := rstrip_nul (lstrip_nul bs).

Definition is_ascii (b : byte) : bool := (byte_val b <? 128).

(** [bs.decode('ascii', errors='ignore')]: bytes above 0x7f are dropped. *)
Fixpoint decode_ascii_ignore (bs : bytes) : string :=
  match bs with
  | [] => EmptyString
  | b :: t =>
      if is_ascii b then String (ascii_of_byte b) (decode_ascii_ignore t)
      else decode_ascii_ignore t
  end.

(** [window.strip(b'\x00').decode('ascii', errors='ignore')] *)
Definition text (window : bytes) : string :=
  decode_ascii_ignore (strip_nul window).

(** Conversion of a Python int to a double; exact below 2^53, which covers
    every 32-bit raw price. *)
Fixpoint float_of_positive (p : positive) : float :=
  match p with
  | xH => 1%float
  | xO q => PrimFloat.mul 2%float (float_of_positive q)
  | xI q => PrimFloat.add (PrimFloat.mul 2%float (float_of_positive q)) 1%float
  end.

Definition float_of_Z (z : Z) : float :=
  match z with
  | Z0 => 0%float
  | Zpos p => float_of_positive p
  | Zneg p => PrimFloat.opp (float_of_positive p)
  end.

(** [raw / 10000.0] *)
Definition price_of (raw : Z) : float :=
  PrimFloat.div (float_of_Z raw) 10000%float.

(** ** Per-type decoding routines *)

Definition parser_method := bytes -> Z -> Z -> Z -> result record.

Definition _parse_system_event : parser_method :=
  fun message stock_locate tracking_number timestamp =>
  c <- getitem message 11 ;;
  let event_code := chr c in
  Ok [ ("message_type", VStr "S");
       ("stock_locate", VInt stock_locate);
       ("tracking_number", VInt tracking_number);
       ("timestamp", VInt timestamp);
       ("event_code", VStr event_code) ].

Definition _parse_stock_directory : parser_method :=
  fun message stock_locate tracking_number timestamp =>
  let stock := text (slice 11 19 message) in
  c19 <- getitem message 19 ;;
  let market_category := chr c19 in
  c20 <- getitem message 20 ;;
  let financial_status := chr c20 in
  round_lot_size <- unpack_I (slice 40 44 message) ;;
  Ok [ ("message_type", VStr "R");
       ("stock_locate", VInt stock_locate);
       ("tracking_number", VInt tracking_number);
       ("timestamp", VInt timestamp);
       ("stock", VStr stock);
       ("market_category", VStr market_category);
       ("financial_status", VStr financial_status);
       ("round_lot_size", VInt round_lot_size) ].

Definition buy_sell_of (c : byte) : string :=
  if String.eqb (chr c) "B" then "B" else "S".

Definition _parse_add_order_no_mpid : parser_method :=
  fun message stock_locate tracking_number timestamp =>
  order_ref <- unpack_Q (slice 19 27 message) ;;
  c <- getitem message 11 ;;
  let buy_sell := buy_sell_of c in
  shares <- unpack_I (slice 27 31 message) ;;
  let stock := text (slice 12 20 message) in
  raw <- unpack_I (slice 31 35 message) ;;
  let price := price_of raw in
  Ok [ ("message_type", VStr "A");
       ("stock_locate", VInt stock_locate);
       ("tracking_number", VInt tracking_number);
       ("timestamp", VInt timestamp);
       ("order_ref", VInt order_ref);
       ("buy_sell", VStr buy_sell);
       ("shares", VInt shares);
       ("stock", VStr stock);
       ("price", VFloat price) ].

Definition _parse_add_order_with_mpid : parser_method :=
  fun message stock_locate tracking_number timestamp =>
  order_ref <- unpack_Q (slice 19 27 message) ;;
  c <- getitem message 11 ;;
  let buy_sell := buy_sell_of c in
  shares <- unpack_I (slice 27 31 message) ;;
  let stock := text (slice 12 20 message) in
  raw <- unpack_I (slice 31 35 message) ;;
  let price := price_of raw in
  let mpid := text (slice 35 39 message) in
  Ok [ ("message_type", VStr "F");
       ("stock_locate", VInt stock_locate);
       ("tracking_number", VInt tracking_number);
       ("timestamp", VInt timestamp);
       ("order_ref", VInt order_ref);
       ("buy_sell", VStr buy_sell);
       ("shares", VInt shares);
       ("stock", VStr stock);
       ("price", VFloat price);
       ("mpid", VStr mpid) ].

Definition _parse_order_executed : parser_method :=
  fun message stock_locate tracking_number timestamp =>
  order_ref <- unpack_Q (slice 11 19 message) ;;
  executed_shares <- unpack_I (slice 19 23 message) ;;
  match_number <- unpack_Q (slice 23 31 message) ;;
  Ok [ ("message_type", VStr "E");
       ("stock_locate", VInt stock_locate);
       ("tracking_number", VInt tracking_number);
       ("timestamp", VInt timestamp);
       ("order_ref", VInt order_ref);
       ("executed_shares", VInt executed_shares);
       ("match_number", VInt match_number) ].

Definition _parse_trade : parser_method :=
  fun message stock_locate tracking_number timestamp =>
  order_ref <- unpack_Q (slice 19 27 message) ;;
  shares <- unpack_Q (slice 27 35 message) ;;
  let stock := text (slice 11 19 message) in
  raw <- unpack_I (slice 35 39 message) ;;
  let price := price_of raw in
  match_number <- unpack_Q (slice 39 47 message) ;;
  Ok [ ("message_type", VStr "P");
       ("stock_locate", VInt stock_locate);
       ("tracking_number", VInt tracking_number);
       ("timestamp", VInt timestamp);
       ("order_ref", VInt order_ref);
       ("shares", VInt shares);
       ("stock", VStr stock);
       ("price", VFloat price);
       ("match_number", VInt match_number) ].

Definition _parse_order_cancel : parser_method :=
  fun message stock_locate tracking_number timestamp =>
  order_ref <- unpack_Q (slice 11 19 message) ;;
  canceled_shares <- unpack_I (slice 19 23 message) ;;
  Ok [ ("message_type", VStr "X");
       ("stock_locate", VInt stock_locate);
       ("tracking_number", VInt tracking_number);
       ("timestamp", VInt timestamp);
       ("order_ref", VInt order_ref);
       ("canceled_shares", VInt canceled_shares) ].

Definition _parse_order_delete : parser_method :=
  fun message stock_locate tracking_number timestamp =>
  order_ref <- unpack_Q (slice 11 19 message) ;;
  Ok [ ("message_type", VStr "D");
       ("stock_locate", VInt stock_locate);
       ("tracking_number", VInt tracking_number);
       ("timestamp", VInt timestamp);
       ("order_ref", VInt order_ref) ].

Definition _parse_order_replace : parser_method :=
  fun message stock_locate tracking_number timestamp =>
  orig_order_ref <- unpack_Q (slice 11 19 message) ;;
  new_order_ref <- unpack_Q (slice 19 27 message) ;;
  shares <- unpack_I (slice 27 31 message) ;;
  raw <- unpack_I (slice 31 35 message) ;;
  let price := price_of raw in
  Ok [ ("message_type", VStr "U");
       ("stock_locate", VInt stock_locate);
       ("tracking_number", VInt tracking_number);
       ("timestamp", VInt timestamp);
       ("orig_order_ref", VInt orig_order_ref);
       ("new_order_ref", VInt new_order_ref);
       ("shares", VInt shares);
       ("price", VFloat price) ].

Definition _parse_stock_trading_action : parser_method :=
  fun message stock_locate tracking_number timestamp =>
  let stock := text (slice 11 19 message) in
  c19 <- getitem message 19 ;;
  let trading_state := chr c19 in
  c20 <- getitem message 20 ;;
  let reserved := chr c20 in
  let reason := text (slice 21 25 message) in
  Ok [ ("message_type", VStr "H");
       ("stock_locate", VInt stock_locate);
       ("tracking_number", VInt tracking_number);
       ("timestamp", VInt timestamp);
       ("stock", VStr stock);
       ("trading_state", VStr trading_state);
       ("reason", VStr reason) ].

(** ** Message decoder *)

(** The dispatch dict of [_get_parser_method], in source order. *)
Definition parsers : list (string * parser_method) :=
  [ ("S", _parse_system_event);
    ("R", _parse_stock_directory);
    ("A", _parse_add_order_no_mpid);
    ("F", _parse_add_order_with_mpid);
    ("E", _parse_order_executed);
    ("P", _parse_trade);
    ("X", _parse_order_cancel);
    ("D", _parse_order_delete);
    ("U", _parse_order_replace);
    ("H", _parse_stock_trading_action) ].

Definition _get_parser_method (message_type : string) : option parser_method :=
  dict_get message_type parsers.

(** The body of the [try] block of [_parse_message]. *)
Definition parse_message_body (message_type : string) (message : bytes)
  : result record :=
  stock_locate <- unpack_H (slice 1 3 message) ;;
  tracking_number <- unpack_H (slice 3 5 message) ;;
  let timestamp := from_bytes_big (slice 5 11 message) in
  match _get_parser_method message_type with
  | Some parser_method =>
      parser_method message stock_locate tracking_number timestamp
  | None =>
      Ok [ ("message_type", VStr message_type);
           ("stock_locate", VInt stock_locate);
           ("tracking_number", VInt tracking_number);
           ("timestamp", VInt timestamp);
           ("raw_length", VInt (Z.of_nat (List.length message))) ]
  end.

(** [_parse_message]: [None] for an empty message and whenever the body
    raises ([except Exception: return None]). *)
Definition _parse_message (message : bytes) : option record :=
  match message with
  | [] => None
  | b0 :: _ =>
      let message_type := chr b0 in
      match parse_message_body message_type message with
      | Ok r => Some r
      | Raise _ => None
      end
  end.

(** ** Categorizer and chunk buffer *)

(** [message_data]: bucket name -> records, in the dict's insertion order. *)
Definition buffers := list (string * list record).

Definition _initialize_message_buffers : buffers :=
  [ ("system_events", []);
    ("stock_directory", []);
    ("trading_actions", []);
    ("add_orders", []);
    ("trades", []);
    ("order_executions", []);
    ("order_cancels", []);
    ("order_deletes", []);
    ("order_replaces", []) ].

(** [for key in messages_data: messages_data[key] = []] *)
Definition _clear_message_buffers (messages_data : buffers) : buffers :=
  map (fun kv => (fst kv, [])) messages_data.

(** [messages_data[key].append(parsed)] *)
Fixpoint bucket_append (key : string) (parsed : record) (messages_data : buffers)
  : result buffers :=
  match messages_data with
  | [] => Raise KeyError
  | (k, l) :: rest =>
      if String.eqb k key then Ok ((k, l ++ [parsed]) :: rest)
      else rest' <- bucket_append key parsed rest ;; Ok ((k, l) :: rest')
  end.

(** [msg_type == s] where [msg_type] comes from [parsed.get(...)] *)
Definition value_is (v : option value) (s : string) : bool :=
  match v with
  | Some (VStr t) => String.eqb t s
  | _ => false
  end.

Definition _categorize_message (parsed : record) (messages_data : buffers)
  : result buffers :=
  let msg_type := get "message_type" parsed in
  if value_is msg_type "S" then
    bucket_append "system_events" parsed messages_data
  else if value_is msg_type "R" then
    bucket_append "stock_directory" parsed messages_data
  else if value_is msg_type "H" then
    bucket_append "trading_actions" parsed messages_data
  else if value_is msg_type "A" || value_is msg_type "F" then
    bucket_append "add_orders" parsed messages_data
  else if value_is msg_type "P" then
    bucket_append "trades" parsed messages_data
  else if value_is msg_type "E" || value_is msg_type "C" then
    bucket_append "order_executions" parsed messages_data
  else if value_is msg_type "X" then
    bucket_append "order_cancels" parsed messages_data
  else if value_is msg_type "D" then
    bucket_append "order_deletes" parsed messages_data
  else if value_is msg_type "U" then
    bucket_append "order_replaces" parsed messages_data
  else Ok messages_data.

(** One call of [_save_chunk_to_store]: the tables put under
    [/{data_type}/chunk_{chunk_num}], one per non-empty bucket.  The
    [chunk], [date] and [datetime] columns added to each frame are functions
    of [chunk_num], the parser's date and the rows, and are not repeated. *)
Record flush : Type := mkFlush {
  chunk_num : Z;
  tables : list (string * list record)
}.

Definition nonempty {A} (l : list A) : bool :=
  match l with [] => false | _ :: _ => true end.

(** The sink, as the sequence of [_save_chunk_to_store] calls it received. *)
Definition hdf_store := list flush.

Definition _save_chunk_to_store (store : hdf_store) (message_data : buffers)
  (chunk : Z) : hdf_store :=
  store ++ [ mkFlush chunk (filter (fun kv => nonempty (snd kv)) message_data) ].

(** ** Pipeline driver *)

Record run_state : Type := mkState {
  f : bytes;                 (* unread part of the input file *)
  message_data : buffers;
  message_count : Z;
  chunk_count : Z;
  store : hdf_store
}.

(** Why the [while True] loop was left (one log line each). *)
Inductive stop : Set :=
| LimitReached   (* 'Reached limit of ... messages' *)
| EndOfFile      (* 'end of file reached!' *)
| Incomplete.    (* 'Incomplete message at position ...' *)

Inductive outcome : Type :=
| Break (why : stop) (s : run_state)
| Continue (s : run_state).

(** [f.read(n)]: up to [n] bytes, and the cursor moves past them. *)
Definition read (n : nat) (file : bytes) : bytes * bytes :=
  (firstn n file, skipn n file).

(** [limit and message_count >= limit] *)
Definition limit_reached (limit : option Z) (count : Z) : bool :=
  match limit with
  | None => false
  | Some l => negb (l =? 0) && (l <=? count)
  end.

(** [if parsed:] a record is kept when it is not [None] and not empty. *)
Definition truthy (parsed : option record) : option record :=
  match parsed with
  | Some (kv :: r) => Some (kv :: r)
  | _ => None
  end.

(** Lines 120-136: decode, categorize, count, flush at a chunk boundary.
    An exception raised here is caught by [except Exception: continue]. *)
Definition handle_message (chunksize : Z) (message : bytes) (s : run_state)
  : run_state :=
  let parsed := _parse_message message in
  let categorized :=
    match truthy parsed with
    | Some p => _categorize_message p (message_data s)
    | None => Ok (message_data s)
    end in
  match categorized with
  | Raise _ => s
  | Ok md =>
      let count := message_count s + 1 in
      if chunksize =? 0 then
        (* [message_count % chunksize] raises ZeroDivisionError *)
        mkState (f s) md count (chunk_count s) (store s)
      else if count mod chunksize =? 0 then
        mkState (f s) (_clear_message_buffers md) count (chunk_count s + 1)
                (_save_chunk_to_store (store s) md (chunk_count s))
      else
        mkState (f s) md count (chunk_count s) (store s)
  end.

Definition set_f (s : run_state) (file : bytes) : run_state :=
  mkState file (message_data s) (message_count s) (chunk_count s) (store s).

(** One iteration of the [while True] loop. *)
Definition loop_body (limit : option Z) (chunksize : Z) (s : run_state)
  : outcome :=
  if limit_reached limit (message_count s) then Break LimitReached s
  else
    let (length_bytes, f1) := read 2 (f s) in
    if Nat.ltb (List.length length_bytes) 2 then Break EndOfFile (set_f s f1)
    else
      let message_length := from_bytes_big length_bytes in
      let (message, f2) := read (Z.to_nat message_length) f1 in
      if negb (nonempty message)
         || (Z.of_nat (List.length message) <? message_length)
      then Break Incomplete (set_f s f2)
      else Continue (handle_message chunksize message (set_f s f2)).

(** The loop, with a bound on the number of iterations. *)
Fixpoint loop (fuel : nat) (limit : option Z) (chunksize : Z) (s : run_state)
  : option (stop * run_state) :=
  match fuel with
  | O => None
  | S fuel' =>
      match loop_body limit chunksize s with
      | Break why s' => Some (why, s')
      | Continue s' => loop fuel' limit chunksize s'
      end
  end.

Definition initial_state (file : bytes) : run_state :=
  mkState file _initialize_message_buffers 0 0 [].

(** Every iteration that continues consumes at least two bytes, so the
    number of unread bytes bounds the number of iterations. *)
Definition run_loop (limit : option Z) (chunksize : Z) (s : run_state)
  : option (stop * run_state) :=
  loop (S (List.length (f s))) limit chunksize s.

(** Lines 148-150: [if message_count % chunksize != 0: save]. *)
Definition final_flush (chunksize : Z) (s : run_state) : result run_state :=
  if chunksize =? 0 then Raise ZeroDivisionError
  else if negb (message_count s mod chunksize =? 0) then
    Ok (mkState (f s) (message_data s) (message_count s) (chunk_count s)
          (_save_chunk_to_store (store s) (message_data s) (chunk_count s)))
  else Ok s.

(** [parse_file_to_hdf5] on the contents of the input file. *)
Definition parse_file_to_hdf5 (limit : option Z) (chunksize : Z) (file : bytes)
  : option (result (stop * run_state)) :=
  let (header, f0) := read 44 file in
  match run_loop limit chunksize (initial_state f0) with
  | None => None
  | Some (why, s) =>
      Some (s' <- final_flush chunksize s ;; Ok (why, s'))
  end.

(** ** Well-formed input streams *)

Definition byte_of_nat (n : nat) : byte :=
  match Byte.of_nat n with
  | Some b => b
  | None => x00
  end.

(** [struct.pack('>H', n)] *)
Definition pack_H (n : nat) : bytes :=
  [ byte_of_nat (n / 256); byte_of_nat (n mod 256) ].

(** One frame on the wire: the length prefix, then the payload. *)
Definition frame (payload : bytes) : bytes :=
  pack_H (List.length payload) ++ payload.

Definition frames (payloads : list bytes) : bytes :=
  List.concat (map frame payloads).

(** A payload that fits a frame that the reader accepts. *)
Definition wf_payload (payload : bytes) : Prop :=
  0 < Z.of_nat (List.length payload) < 65536.

(** The messages the loop has handled, from the state [s] on. *)
Definition feed (chunksize : Z) (payloads : list bytes) (s : run_state)
  : run_state :=
  fold_left (fun st p => handle_message chunksize p st) payloads s.

Definition well_keyed (md : buffers) : Prop :=
  map fst md = map fst _initialize_message_buffers.

Definition all_empty (md : buffers) : bool :=
  forallb (fun kv => negb (nonempty (snd kv))) md.

(** [ceil(m / c)] for a positive [c] *)
Definition ceil_div (m c : Z) : Z := (m + c - 1) / c.

(** Smallest payload length on which the routine of a type tag, after the
    common header, raises nothing (offsets read from the routines). *)
Definition required_length (message_type : string) : nat :=
  match dict_get message_type
          [ ("S", 12); ("R", 44); ("A", 35); ("F", 35); ("E", 31);
            ("P", 47); ("X", 23); ("D", 19); ("U", 35); ("H", 21) ]%nat with
  | Some n => n
  | None => 5%nat
  end.

(** The text of a window as the specification words it, to compare with
    [text]: only the trailing NUL padding goes, and every remaining byte is
    kept as its character. *)
Definition text_trailing_only (window : bytes) : string :=
  string_of_list_byte (rstrip_nul window).

Definition is_ok {A} (r : result A) : bool :=
  match r with Ok _ => true | Raise _ => false end.

(** The state after the payloads, with the file read to its end. *)
Definition run_of (chunksize : Z) (payloads : list bytes) : run_state :=
  feed chunksize payloads (initial_state []).

Definition flushes_nonempty (st : hdf_store) : Prop :=
  Forall (fun fl => Forall (fun kv => snd kv <> []) (tables fl)) st.

(** What holds between two iterations of the loop for a positive chunk
    size: the chunk counter and the flushes follow the message counter. *)
Definition chunk_invariant (chunksize : Z) (s : run_state) : Prop :=
  0 <= message_count s /\
  chunk_count s = message_count s / chunksize /\
  map chunk_num (store s) =
    map Z.of_nat (seq 0 (Z.to_nat (message_count s / chunksize))) /\
  flushes_nonempty (store s) /\
  well_keyed (message_data s) /\
  (message_count s mod chunksize = 0 -> all_empty (message_data s) = true).

(** ** Sample inputs *)

(** System event, header bytes zero, event code 'O'. *)
Definition sample_system_event : bytes :=
  "S"%byte :: repeat x00 10 ++ [ "O"%byte ].

(** Add order: buy, stock AAPL, order 7, 100 shares, raw price 1235000. *)
Definition sample_add_order : bytes :=
  "A"%byte :: repeat x00 10 ++
  [ "B"%byte; "A"%byte; "A"%byte; "P"%byte; "L"%byte; x00; x00; x00;
    x00; x00; x00; x00; x00; x00; x00; x07;
    x00; x00; x00; x64;  x00; x12; xd8; x38 ].

(** Add order with MPID, cut right after the price: 35 bytes. *)
Definition sample_add_order_with_mpid : bytes :=
  "F"%byte :: repeat x00 10 ++
  [ "S"%byte; "M"%byte; "S"%byte; "F"%byte; "T"%byte; x00; x00; x00;
    x00; x00; x00; x00; x00; x00; x00; x09;
    x00; x00; x00; x0a;  x00; x00; x27; x10 ].

(** Order executed with price: tag and common header only. *)
Definition sample_executed_with_price : bytes :=
  [ "C"%byte; x00; x01; x00; x02; x00; x00; x00; x00; x00; x03 ].

(** A stock directory payload cut after its header. *)
Definition sample_short_directory : bytes :=
  "R"%byte :: repeat x00 10.

Definition sample_preamble : bytes := repeat x00 44.

Definition sample_file (n : nat) : bytes :=
  sample_preamble ++ frames (repeat sample_system_event n).

(** ** Accounting of records *)

Definition bucket_names : list string := map fst _initialize_message_buffers.

(** The type tags the if-chain of [_categorize_message] tests for. *)
Definition categorized_tags : list string :=
  [ "S"; "R"; "H"; "A"; "F"; "P"; "E"; "C"; "X"; "D"; "U" ].

(** The rows under key [k] ([[]] when the key is absent). *)
Definition bucket (k : string) (md : list (string * list record))
  : list record :=
  match dict_get k md with
  | Some l => l
  | None => []
  end.

(** Everything written for bucket [k], in the order of the flushes. *)
Definition flushed (k : string) (st : hdf_store) : list record :=
  List.concat (map (fun fl => bucket k (tables fl)) st).

(** What one message adds to bucket [k]: its record when the decoder
    returns one and the categorizer sends it there, nothing otherwise. *)
Definition kept (k : string) (message : bytes) : list record :=
  match truthy (_parse_message message) with
  | Some r =>
      match _categorize_message r _initialize_message_buffers with
      | Ok md => bucket k md
      | Raise _ => []
      end
  | None => []
  end.

(** The (bucket, chunk) pairs under which the flushes put their tables. *)
Definition put_keys (st : hdf_store) : list (string * Z) :=
  flat_map (fun fl => map (fun kv => (fst kv, chunk_num fl)) (tables fl)) st.

(** ** Store keys and reading back ([utils.py]) *)

Fixpoint pad_zeros (k : nat) (d : Decimal.uint) : Decimal.uint :=
  match k with
  | O => d
  | S k' => Decimal.D0 (pad_zeros k' d)
  end.

(** The digits of [d], zero-filled on the left to [width] digits. *)
Definition zfill (width : nat) (d : Decimal.uint) : Decimal.uint :=
  pad_zeros (width - Decimal.nb_digits d) d.

(** [f'{n:04d}']: at least four characters, the sign included. *)
Definition format_04d (n : Z) : string :=
  if n <? 0 then
    String "-" (NilEmpty.string_of_uint (zfill 3 (N.to_uint (Z.to_N (- n)))))
  else NilEmpty.string_of_uint (zfill 4 (N.to_uint (Z.to_N n))).

(** [f'/{data_type}/chunk_{chunk_num:04d}'], the key of [store.put]. *)
Definition hdf_key (data_type : string) (chunk : Z) : string :=
  "/" ++ data_type ++ "/chunk_" ++ format_04d chunk.

(** The keys the flushes of a run have put, in the order of the puts. *)
Definition written_keys (st : hdf_store) : list string :=
  map (fun kn => hdf_key (fst kn) (snd kn)) (put_keys st).

(** [s.startswith(sub)] *)
Fixpoint starts_with (sub s : string) : bool :=
  match sub, s with
  | EmptyString, _ => true
  | String _ _, EmptyString => false
  | String a sub', String b s' => Ascii.eqb a b && starts_with sub' s'
  end.

(** [sub in s] for strings *)
Fixpoint is_substring (sub s : string) : bool :=
  starts_with sub s ||
  match s with
  | EmptyString => false
  | String _ s' => is_substring sub s'
  end.

(** [s.split(sep)] for a separator of one character: never empty. *)
Fixpoint split_on (sep : ascii) (s : string) : list string :=
  match s with
  | EmptyString => [ EmptyString ]
  | String c s' =>
      if Ascii.eqb c sep then EmptyString :: split_on sep s'
      else match split_on sep s' with
           | [] => [ String c EmptyString ]
           | w :: ws => String c w :: ws
           end
  end.

(** [d[k] = v] on a dict kept in insertion order. *)
Fixpoint dict_set {V : Type} (k : string) (v : V) (d : list (string * V))
  : list (string * V) :=
  match d with
  | [] => [ (k, v) ]
  | (k', v') :: d' =>
      if String.eqb k k' then (k, v) :: d' else (k', v') :: dict_set k v d'
  end.

(** [d.get(k, default)] *)
Definition dict_get_default {V : Type} (k : string) (default : V)
  (d : list (string * V)) : V :=
  match dict_get k d with
  | Some v => v
  | None => default
  end.

Inductive utils_exn : Set :=
| ValueError.         (* 'Invalid data_type. Must be one of ...' *)

Inductive returned (A : Type) : Type :=
| Returns (a : A)
| Raises (e : utils_exn).
Arguments Returns {A} a.
Arguments Raises {A} e.

Definition valid_data_types : list string :=
  [ "system_events"; "stock_directory"; "trading_actions";
    "add_orders"; "trades"; "order_executions";
    "order_cancels"; "order_deletes"; "order_replaces" ].

Section HDFStore.

(** A stored frame is the list of its rows; an open store is the list of
    its (key, frame) pairs in the order of [store.keys()]. *)
Variable row : Type.

(** [int(s)] on a string: [None] stands for ValueError.  The functions
    below are written against any such function. *)
Variable py_int : string -> option Z.

(** Lines 53-63: the chunk filter, frames with an unreadable chunk number
    being included anyway. *)
Definition chunk_selected (key : string) (chunks : list Z) : bool :=
  match py_int (last (split_on "_" key) EmptyString) with
  | Some chunk_num => existsb (Z.eqb chunk_num) chunks
  | None => true
  end.

(** [read_itch_hdf5] on an existing file. *)
Definition read_itch_hdf5 (store : list (string * list row))
  (data_type : string) (chunks : option (list Z)) : returned (list row) :=
  if negb (existsb (String.eqb data_type) valid_data_types) then
    Raises ValueError
  else
    let data_frames :=
      map snd
        (filter (fun kv =>
                   is_substring data_type (fst kv) &&
                   match chunks with
                   | Some cs => chunk_selected (fst kv) cs
                   | None => true
                   end) store) in
    Returns (List.concat data_frames).

(** Line 141 of [analyze_hdf5_files]: the data type named by a key. *)
Definition data_type_of_key (key : string) : string :=
  if is_substring "/" key && Nat.ltb 1 (List.length (split_on "/" key))
  then nth 1 (split_on "/" key) EmptyString
  else "unknown".

(** Lines 131-146 of [analyze_hdf5_files], the ITCH file being there:
    the keys, [total_messages] and [message_counts]. *)
Definition analyze_itch_file (store : list (string * list row))
  : list string * Z * list (string * Z) :=
  let '(total_messages, message_counts) :=
    fold_left
      (fun acc kv =>
         let '(total, counts) := acc in
         let data_type := data_type_of_key (fst kv) in
         let n := Z.of_nat (List.length (snd kv)) in
         (total + n,
          dict_set data_type (dict_get_default data_type 0 counts + n) counts))
      store (0, []) in
  (map fst store, total_messages, message_counts).

End HDFStore.

(** A reading of [int] that is right on plain digit strings and rejects
    everything else. *)
Definition int_of_digits (s : string) : option Z :=
  match NilEmpty.uint_of_string s with
  | Some Decimal.Nil => None
  | Some d => Some (Z.of_N (N.of_uint d))
  | None => None
  end.

(** What the statements below ask of [int]: on a non-empty string of ASCII
    digits it returns the number they write, leading zeros allowed. *)
Definition reads_digits (py_int : string -> option Z) : Prop :=
  forall d, d <> Decimal.Nil ->
            py_int (NilEmpty.string_of_uint d) = Some (Z.of_N (N.of_uint d)).

Definition is_digit (a : ascii) : bool :=
  (48 <=? nat_of_ascii a)%nat && (nat_of_ascii a <=? 57)%nat.

Fixpoint all_chars (p : ascii -> bool) (s : string) : bool :=
  match s with
  | EmptyString => true
  | String a s' => p a && all_chars p s'
  end.

(** The frames of a store that was written under the parser's keys. *)
Definition keyed_store {row : Type} (entries : list (string * Z * list row))
  : list (string * list row) :=
  map (fun e => (hdf_key (fst (fst e)) (snd (fst e)), snd e)) entries.

(** The sum of the values of a dict of counts. *)
Definition sum_values (d : list (string * Z)) : Z :=
  fold_right Z.add 0 (map snd d).

(** The number of rows of the entries that [p] selects. *)
Definition rows_where {row : Type} (p : string * Z * list row -> bool)
  (entries : list (string * Z * list row)) : Z :=
  Z.of_nat (List.length (List.concat (map snd (filter p entries)))).

(** An entry written by the parser: one of the nine buckets and a chunk
    number that is not negative. *)
Definition parser_entry {row : Type} (e : string * Z * list row) : Prop :=
  In (fst (fst e)) valid_data_types /\ 0 <= snd (fst e).

(** The tables of one flush carry bucket names, each at most once. *)
Definition tables_keyed (fl : flush) : Prop :=
  NoDup (map fst (tables fl)) /\
  incl (map fst (tables fl)) valid_data_types.

(** ** Field decoder lemmas *)

Lemma slice_length (a b : nat) (m : bytes) :
  List.length (slice a b m) = Nat.min (b - a) (List.length m - a).
Proof.
  unfold slice. now rewrite length_firstn, length_skipn.
Qed.

Lemma unpack_be_slice_ok (n a b : nat) (m : bytes) :
  n = (b - a)%nat -> (b <= List.length m)%nat ->
  unpack_be n (slice a b m) = Ok (from_bytes_big (slice a b m)).
Proof.
  intros -> Hb. unfold unpack_be. rewrite slice_length.
  replace (Nat.min (b - a) (List.length m - a)) with (b - a)%nat by lia.
  now rewrite Nat.eqb_refl.
Qed.

Lemma unpack_be_slice_short (n a b : nat) (m : bytes) :
  n = (b - a)%nat -> (a < b)%nat -> (List.length m < b)%nat ->
  unpack_be n (slice a b m) = Raise StructError.
Proof.
  intros -> Hab Hb. unfold unpack_be. rewrite slice_length.
  destruct (Nat.eqb_spec (Nat.min (b - a) (List.length m - a)) (b - a)) as [E|E];
    [lia | reflexivity].
Qed.

Lemma getitem_ok (m : bytes) (i : nat) :
  (i < List.length m)%nat -> getitem m i = Ok (nth i m x00).
Proof.
  intros Hi. unfold getitem.
  now rewrite (nth_error_nth' m x00 Hi).
Qed.

Lemma getitem_short (m : bytes) (i : nat) :
  (List.length m <= i)%nat -> getitem m i = Raise IndexError.
Proof.
  intros Hi. unfold getitem.
  apply nth_error_None in Hi. now rewrite Hi.
Qed.

Lemma from_bytes_big_snoc (bs : bytes) (b : byte) :
  from_bytes_big (bs ++ [b]) = from_bytes_big bs * 256 + byte_val b.
Proof.
  unfold from_bytes_big. now rewrite fold_left_app.
Qed.

Lemma byte_val_range (b : byte) : 0 <= byte_val b < 256.
Proof.
  unfold byte_val. pose proof (Byte.to_N_bounded b). lia.
Qed.

(** An [n]-byte window decodes to an unsigned integer below [256^n]. *)
Lemma from_bytes_big_range (bs : bytes) :
  0 <= from_bytes_big bs < 256 ^ Z.of_nat (List.length bs).
Proof.
  induction bs as [|b bs IH] using rev_ind.
  - cbn. lia.
  - rewrite from_bytes_big_snoc, length_app. cbn [List.length].
    replace (Z.of_nat (List.length bs + 1)) with (Z.succ (Z.of_nat (List.length bs)))
      by lia.
    rewrite Z.pow_succ_r by lia.
    pose proof (byte_val_range b). nia.
Qed.

Lemma chr_eqb (c d : byte) : String.eqb (chr c) (chr d) = Byte.eqb c d.
Proof.
  destruct (Byte.eqb c d) eqn:E.
  - apply Byte.byte_dec_bl in E. subst. apply String.eqb_refl.
  - apply String.eqb_neq. intros H. unfold chr in H.
    injection H as H. apply (f_equal byte_of_ascii) in H.
    rewrite !byte_of_ascii_of_byte in H. subst.
    rewrite Byte.byte_dec_lb in E by reflexivity. discriminate.
Qed.

(** ** Message decoder lemmas *)

(** Decide each window or index of a routine against the payload length. *)
Ltac decode_step :=
  match goal with
  | |- context [unpack_be ?n (slice ?a ?b ?m)] =>
      destruct (le_lt_dec b (List.length m));
      [ rewrite (unpack_be_slice_ok n a b m) by lia
      | rewrite (unpack_be_slice_short n a b m) by lia ];
      cbn [bind]
  | |- context [getitem ?m ?i] =>
      destruct (le_lt_dec (S i) (List.length m));
      [ rewrite (getitem_ok m i) by lia
      | rewrite (getitem_short m i) by lia ];
      cbn [bind]
  end.

Ltac unfold_routines :=
  unfold _parse_system_event, _parse_stock_directory,
    _parse_add_order_no_mpid, _parse_add_order_with_mpid,
    _parse_order_executed, _parse_trade, _parse_order_cancel,
    _parse_order_delete, _parse_order_replace, _parse_stock_trading_action,
    unpack_H, unpack_I, unpack_Q.

Ltac length_leaf :=
  cbn [is_ok]; symmetry;
  first [ apply Nat.leb_le; lia | apply Nat.leb_gt; lia ].

(** The decoding of a payload succeeds exactly when the payload reaches the
    last offset its routine reads. *)
Lemma parse_message_body_ok (t : string) (m : bytes) :
  is_ok (parse_message_body t m) = (required_length t <=? List.length m)%nat.
Proof.
  unfold parse_message_body, _get_parser_method, required_length, parsers.
  cbn [dict_get].
  repeat (match goal with
          | |- context [String.eqb t ?k] => destruct (String.eqb t k)
          end;
          [ unfold_routines; repeat decode_step; length_leaf | ]).
  unfold_routines; repeat decode_step; length_leaf.
Qed.

(** The text windows are slices and ask for nothing: an 'F' payload that
    ends before its MPID window still decodes, with an empty MPID. *)
Example add_order_with_mpid_without_window :
  _parse_message sample_add_order_with_mpid =
  Some [ ("message_type", VStr "F"); ("stock_locate", VInt 0);
         ("tracking_number", VInt 0); ("timestamp", VInt 0);
         ("order_ref", VInt 9); ("buy_sell", VStr "S");
         ("shares", VInt 10); ("stock", VStr "MSFT");
         ("price", VFloat 1%float); ("mpid", VStr "") ].
Proof. reflexivity. Qed.

Lemma parse_message_some_iff (b0 : byte) (rest : bytes) :
  _parse_message (b0 :: rest) <> None <->
  (required_length (chr b0) <= List.length (b0 :: rest))%nat.
Proof.
  pose proof (parse_message_body_ok (chr b0) (b0 :: rest)) as H.
  unfold _parse_message.
  destruct (parse_message_body (chr b0) (b0 :: rest)); cbn [is_ok] in H;
    symmetry in H.
  - apply Nat.leb_le in H. split; [auto | congruence].
  - apply Nat.leb_gt in H. split; [congruence | lia].
Qed.

(** ** Text windows *)

Lemma lstrip_nul_split (bs : bytes) :
  exists lead, bs = lead ++ lstrip_nul bs /\ Forall (eq x00) lead.
Proof.
  induction bs as [|b bs [lead [E F]]]; cbn [lstrip_nul].
  - exists []. split; [reflexivity | constructor].
  - destruct (Byte.eqb b x00) eqn:Hb.
    + apply Byte.byte_dec_bl in Hb. subst b.
      exists (x00 :: lead). split.
      * cbn. now rewrite <- E.
      * now constructor.
    + exists []. split; [reflexivity | constructor].
Qed.

Lemma lstrip_nul_head (bs : bytes) : hd_error (lstrip_nul bs) <> Some x00.
Proof.
  induction bs as [|b bs IH]; cbn [lstrip_nul]; [discriminate|].
  destruct (Byte.eqb b x00) eqn:Hb; [exact IH|].
  cbn. intros [= ->]. discriminate.
Qed.

Lemma rstrip_nul_split (bs : bytes) :
  exists trail, bs = rstrip_nul bs ++ trail /\ Forall (eq x00) trail.
Proof.
  unfold rstrip_nul.
  destruct (lstrip_nul_split (rev bs)) as [lead [E F]].
  exists (rev lead). split.
  - rewrite <- rev_app_distr, <- E. now rewrite rev_involutive.
  - now apply Forall_rev.
Qed.

Lemma hd_error_prefix (core trail : bytes) :
  hd_error (core ++ trail) <> Some x00 -> hd_error core <> Some x00.
Proof.
  destruct core; cbn; [discriminate | auto].
Qed.

Lemma decode_ascii_all (bs : bytes) :
  forallb is_ascii bs = true -> decode_ascii_ignore bs = string_of_list_byte bs.
Proof.
  unfold string_of_list_byte.
  induction bs as [|b bs IH]; cbn; [reflexivity|].
  intros H. apply andb_prop in H as [Hb Hbs].
  rewrite Hb. now rewrite IH.
Qed.

Lemma lstrip_nul_id (bs : bytes) :
  hd_error bs <> Some x00 -> lstrip_nul bs = bs.
Proof.
  destruct bs as [|b bs]; cbn; [reflexivity|].
  destruct (Byte.eqb b x00) eqn:Hb; [|reflexivity].
  apply Byte.byte_dec_bl in Hb. subst. congruence.
Qed.

Lemma forallb_prefix {A} (p : A -> bool) (l1 l2 : list A) :
  forallb p (l1 ++ l2) = true -> forallb p l1 = true.
Proof.
  rewrite forallb_app. intros H. now apply andb_prop in H.
Qed.

(** ** Claims on the field and message decoders *)

(** C6 (as amended).  A fixed-width text window decodes to the characters
    of the window with the NUL bytes at BOTH ends removed (the source calls
    [strip], not [rstrip]) and bytes above 0x7f dropped: the window splits as
    leading NULs, a core that neither starts nor ends with NUL, and trailing
    NULs, and the text is the core, interior NULs and spaces included.  When
    the window does not start with NUL and is 7-bit, this is the window
    with only its trailing NUL padding removed. *)
Theorem text_strips_nul_at_both_ends (window : bytes) :
  exists lead core trail,
    window = lead ++ core ++ trail /\
    Forall (eq x00) lead /\ Forall (eq x00) trail /\
    hd_error core <> Some x00 /\ hd_error (rev core) <> Some x00 /\
    text window = decode_ascii_ignore core /\
    (forallb is_ascii core = true -> text window = string_of_list_byte core) /\
    (hd_error window <> Some x00 -> forallb is_ascii window = true ->
     text window = text_trailing_only window).
Proof.
  destruct (lstrip_nul_split window) as [lead [E1 F1]].
  destruct (rstrip_nul_split (lstrip_nul window)) as [trail [E2 F2]].
  exists lead, (strip_nul window), trail. unfold strip_nul.
  repeat split; auto.
  - now rewrite <- E2.
  - apply (hd_error_prefix _ trail). rewrite <- E2. apply lstrip_nul_head.
  - unfold rstrip_nul. rewrite rev_involutive. apply lstrip_nul_head.
  - intros H. unfold text, strip_nul. now apply decode_ascii_all.
  - intros Hhd Hascii. unfold text, strip_nul, text_trailing_only.
    rewrite (lstrip_nul_id window Hhd).
    destruct (rstrip_nul_split window) as [tr [E3 _]].
    apply decode_ascii_all. apply (forallb_prefix _ _ tr). now rewrite <- E3.
Qed.

(** C6 (as stated) fails: a window that starts with a NUL byte loses it,
    where trailing-only stripping would keep it. *)
Lemma text_drops_leading_nul :
  text [x00; "A"%byte; "B"%byte; x00; x00; x00; x00; x00] = "AB" /\
  text [x00; "A"%byte; "B"%byte; x00; x00; x00; x00; x00]
    <> text_trailing_only [x00; "A"%byte; "B"%byte; x00; x00; x00; x00; x00].
Proof.
  split; [reflexivity | vm_compute; discriminate].
Qed.

(** C9.  Every record the decoder returns, from a routine of the dispatch
    table or from the generic branch, carries [message_type] (the character
    of byte 0), [stock_locate] (big-endian bytes 1:3), [tracking_number]
    (big-endian bytes 3:5) and [timestamp] (big-endian bytes 5:11). *)
Theorem every_record_has_common_header (message : bytes) (r : record) :
  _parse_message message = Some r ->
  get "message_type" r = Some (VStr (chr (hd x00 message))) /\
  get "stock_locate" r = Some (VInt (from_bytes_big (slice 1 3 message))) /\
  get "tracking_number" r = Some (VInt (from_bytes_big (slice 3 5 message))) /\
  get "timestamp" r = Some (VInt (from_bytes_big (slice 5 11 message))) /\
  List.length (slice 1 3 message) = 2%nat /\
  List.length (slice 3 5 message) = 2%nat.
Proof.
  destruct message as [|b0 rest]; [discriminate|].
  unfold _parse_message. cbn [hd].
  generalize (b0 :: rest) as m. intros m.
  unfold parse_message_body, _get_parser_method, parsers, unpack_H.
  decode_step; [|discriminate]. decode_step; [|discriminate].
  cbn [dict_get].
  repeat (match goal with
          | |- context [String.eqb (chr b0) ?k] =>
              destruct (String.eqb_spec (chr b0) k) as [->|_]
          end;
          [ unfold_routines; repeat decode_step; intros H; try discriminate H;
            injection H as <-; rewrite !slice_length;
            repeat split; try reflexivity; lia | ]).
  intros H. injection H as <-. rewrite !slice_length.
  repeat split; try reflexivity; lia.
Qed.

Lemma every_record_has_common_header_witness :
  exists r,
    _parse_message sample_executed_with_price = Some r /\
    get "message_type" r = Some (VStr "C") /\
    get "stock_locate" r = Some (VInt 1) /\
    get "tracking_number" r = Some (VInt 2) /\
    get "timestamp" r = Some (VInt 3).
Proof.
  eexists. split; [reflexivity|].
  pose proof (every_record_has_common_header sample_executed_with_price
                _ eq_refl) as H.
  repeat split; apply H.
Defined.

(** C1.  A type-'A' payload of at least 35 bytes decodes to a record with
    [buy_sell] = the character at offset 11 if that is 'B' and 'S' otherwise,
    [stock] = the text of bytes 12:20, [order_ref] = the big-endian unsigned
    64-bit integer of bytes 19:27, [shares] and the raw price = the
    big-endian unsigned 32-bit integers of bytes 27:31 and 31:35, and
    [price] = raw / 10000.0; a raw price of 1235000 gives 123.5. *)
Theorem add_order_no_mpid_fields (message : bytes) :
  hd_error message = Some "A"%byte ->
  (35 <= List.length message)%nat ->
  exists r,
    _parse_message message = Some r /\
    get "message_type" r = Some (VStr "A") /\
    get "buy_sell" r =
      Some (VStr (if Byte.eqb (nth 11 message x00) "B"%byte
                  then chr (nth 11 message x00) else "S")) /\
    get "stock" r = Some (VStr (text (slice 12 20 message))) /\
    get "order_ref" r = Some (VInt (from_bytes_big (slice 19 27 message))) /\
    0 <= from_bytes_big (slice 19 27 message) < 2 ^ 64 /\
    get "shares" r = Some (VInt (from_bytes_big (slice 27 31 message))) /\
    0 <= from_bytes_big (slice 27 31 message) < 2 ^ 32 /\
    get "price" r =
      Some (VFloat (PrimFloat.div
                      (float_of_Z (from_bytes_big (slice 31 35 message)))
                      10000%float)) /\
    0 <= from_bytes_big (slice 31 35 message) < 2 ^ 32 /\
    (from_bytes_big (slice 31 35 message) = 1235000 ->
     get "price" r = Some (VFloat 123.5%float)).
Proof.
  intros Htag Hlen.
  destruct message as [|b0 rest]; [discriminate|].
  injection Htag as ->.
  unfold _parse_message.
  replace (chr "A"%byte) with "A" by reflexivity.
  revert Hlen. generalize ("A"%byte :: rest) as m. intros m Hlen.
  unfold parse_message_body.
  replace (_get_parser_method "A") with (Some _parse_add_order_no_mpid)
    by reflexivity.
  unfold_routines.
  rewrite !unpack_be_slice_ok by lia. cbn [bind].
  rewrite getitem_ok by lia. cbn [bind].
  eexists. split; [reflexivity|].
  pose proof (from_bytes_big_range (slice 19 27 m)) as R1.
  pose proof (from_bytes_big_range (slice 27 31 m)) as R2.
  pose proof (from_bytes_big_range (slice 31 35 m)) as R3.
  rewrite slice_length in R1, R2, R3.
  replace (Nat.min (27 - 19) (List.length m - 19)) with 8%nat in R1 by lia.
  replace (Nat.min (31 - 27) (List.length m - 27)) with 4%nat in R2 by lia.
  replace (Nat.min (35 - 31) (List.length m - 31)) with 4%nat in R3 by lia.
  repeat split; try reflexivity; try (apply R1 || apply R2 || apply R3).
  - cbn [get dict_get String.eqb Ascii.eqb Bool.eqb]. unfold buy_sell_of.
    replace "B" with (chr "B"%byte) at 1 by reflexivity.
    rewrite chr_eqb.
    destruct (Byte.eqb (nth 11 m x00) "B"%byte) eqn:E; [|reflexivity].
    apply Byte.byte_dec_bl in E. now rewrite E.
  - intros Hraw. cbn [get dict_get String.eqb Ascii.eqb Bool.eqb].
    rewrite Hraw. reflexivity.
Qed.

Lemma add_order_no_mpid_fields_witness :
  hd_error sample_add_order = Some "A"%byte /\
  (35 <= List.length sample_add_order)%nat /\
  exists r,
    _parse_message sample_add_order = Some r /\
    get "buy_sell" r = Some (VStr "B") /\
    get "stock" r = Some (VStr "AAPL") /\
    get "order_ref" r = Some (VInt 7) /\
    get "shares" r = Some (VInt 100) /\
    get "price" r = Some (VFloat 123.5%float).
Proof.
  assert (L : (35 <= List.length sample_add_order)%nat) by (cbn; lia).
  split; [reflexivity|]. split; [exact L|].
  destruct (add_order_no_mpid_fields sample_add_order eq_refl L) as [r H].
  exists r. repeat split; apply H; reflexivity.
Defined.

(** C8 (as amended).  A type-'S' payload whose bytes 1 to 10 are zero and
    whose byte 11 is 'O' decodes to message_type 'S', stock_locate 0,
    tracking_number 0, timestamp 0, event_code 'O': a zero header gives a
    zero locate code. *)
Theorem system_event_zero_header (rest : bytes) :
  _parse_message ("S"%byte :: repeat x00 10 ++ "O"%byte :: rest) =
  Some [ ("message_type", VStr "S");
         ("stock_locate", VInt 0);
         ("tracking_number", VInt 0);
         ("timestamp", VInt 0);
         ("event_code", VStr "O") ].
Proof.
  reflexivity.
Qed.

(** C8 (as stated) fails: on the twelve-byte payload the decoded record has
    stock_locate 0, not 1. *)
Lemma system_event_locate_is_not_one :
  _parse_message sample_system_event <>
  Some [ ("message_type", VStr "S");
         ("event_code", VStr "O");
         ("stock_locate", VInt 1);
         ("tracking_number", VInt 0);
         ("timestamp", VInt 0) ] /\
  (forall r, _parse_message sample_system_event = Some r ->
             get "stock_locate" r <> Some (VInt 1)).
Proof.
  split.
  - vm_compute. discriminate.
  - intros r H. vm_compute in H. injection H as <-. vm_compute. discriminate.
Qed.

(** ** Categorizer and buffer lemmas *)

Lemma well_keyed_inv (md : buffers) :
  well_keyed md ->
  exists l1 l2 l3 l4 l5 l6 l7 l8 l9,
    md = [ ("system_events", l1); ("stock_directory", l2);
           ("trading_actions", l3); ("add_orders", l4); ("trades", l5);
           ("order_executions", l6); ("order_cancels", l7);
           ("order_deletes", l8); ("order_replaces", l9) ].
Proof.
  unfold well_keyed, _initialize_message_buffers. cbn [map fst]. intros H.
  do 9 (destruct md as [|[? ?] md]; [discriminate|];
        cbn [map fst] in H; injection H as -> H).
  destruct md; [|discriminate].
  repeat eexists.
Qed.

Lemma well_keyed_clear (md : buffers) :
  well_keyed md -> well_keyed (_clear_message_buffers md).
Proof.
  unfold well_keyed, _clear_message_buffers. intros <-.
  rewrite map_map. reflexivity.
Qed.

Lemma all_empty_clear (md : buffers) :
  all_empty (_clear_message_buffers md) = true.
Proof.
  induction md as [|kv md IH]; [reflexivity | exact IH].
Qed.

Lemma categorize_ok (parsed : record) (md : buffers) :
  well_keyed md ->
  exists md', _categorize_message parsed md = Ok md' /\ well_keyed md'.
Proof.
  intros H.
  destruct (well_keyed_inv md H)
    as (l1 & l2 & l3 & l4 & l5 & l6 & l7 & l8 & l9 & ->).
  unfold _categorize_message.
  repeat match goal with
         | |- context [if ?c then _ else _] => destruct c
         end;
    eexists; split; reflexivity.
Qed.

(** ** Loop lemmas *)

Lemma handle_message_f (c : Z) (p : bytes) (s : run_state) :
  f (handle_message c p s) = f s.
Proof.
  unfold handle_message.
  repeat match goal with
         | |- context [match ?x with _ => _ end] => destruct x
         end; reflexivity.
Qed.

Lemma handle_message_set_f (c : Z) (p : bytes) (s : run_state) (t : bytes) :
  handle_message c p (set_f s t) = set_f (handle_message c p s) t.
Proof.
  unfold handle_message. cbn [set_f message_data message_count chunk_count store f].
  repeat match goal with
         | |- context [match ?x with _ => _ end] => destruct x
         end; reflexivity.
Qed.

Lemma feed_set_f (c : Z) (fs : list bytes) (s : run_state) (t : bytes) :
  feed c fs (set_f s t) = set_f (feed c fs s) t.
Proof.
  revert s. induction fs as [|p fs IH]; intros s; cbn [feed fold_left].
  - reflexivity.
  - rewrite handle_message_set_f. apply IH.
Qed.

Lemma set_f_set_f (s : run_state) (t u : bytes) :
  set_f (set_f s t) u = set_f s u.
Proof. reflexivity. Qed.

Lemma set_f_id (s : run_state) : set_f s (f s) = s.
Proof. destruct s. reflexivity. Qed.

Lemma handle_message_counts (c : Z) (p : bytes) (s : run_state) :
  well_keyed (message_data s) ->
  message_count (handle_message c p s) = message_count s + 1 /\
  well_keyed (message_data (handle_message c p s)).
Proof.
  intros H. unfold handle_message.
  assert (exists md, match truthy (_parse_message p) with
                     | Some r => _categorize_message r (message_data s)
                     | None => Ok (message_data s)
                     end = Ok md /\ well_keyed md) as (md & -> & Hmd).
  { destruct (truthy (_parse_message p)); [now apply categorize_ok | eauto]. }
  destruct (c =? 0); [now split|].
  destruct (_ mod c =? 0); cbn; split; auto using well_keyed_clear.
Qed.

Lemma feed_counts (c : Z) (fs : list bytes) (s : run_state) :
  well_keyed (message_data s) ->
  message_count (feed c fs s) = message_count s + Z.of_nat (List.length fs) /\
  well_keyed (message_data (feed c fs s)).
Proof.
  revert s. induction fs as [|p fs IH]; intros s H; cbn [feed fold_left].
  - cbn. split; [lia | assumption].
  - destruct (handle_message_counts c p s H) as [Hc Hk].
    destruct (IH _ Hk) as [Hc' Hk']. unfold feed in *.
    split; [|assumption]. rewrite Hc', Hc. cbn [List.length]. lia.
Qed.

Lemma feed_f (c : Z) (fs : list bytes) (s : run_state) :
  f (feed c fs s) = f s.
Proof.
  revert s. induction fs as [|p fs IH]; intros s; cbn [feed fold_left].
  - reflexivity.
  - unfold feed in IH. rewrite IH. apply handle_message_f.
Qed.

Lemma byte_val_of_nat (k : nat) :
  (k < 256)%nat -> byte_val (byte_of_nat k) = Z.of_nat k.
Proof.
  intros Hk. unfold byte_of_nat, byte_val.
  destruct (Byte.of_nat k) as [b|] eqn:E.
  - apply Byte.to_of_nat in E. rewrite Byte.to_N_via_nat, E. lia.
  - apply Byte.of_nat_None_iff in E. lia.
Qed.

Lemma from_bytes_pack_H (n : nat) :
  Z.of_nat n < 65536 -> from_bytes_big (pack_H n) = Z.of_nat n.
Proof.
  intros Hn. unfold pack_H, from_bytes_big. cbn [fold_left].
  assert (n / 256 < 256)%nat by (apply Nat.Div0.div_lt_upper_bound; lia).
  assert (n mod 256 < 256)%nat by (apply Nat.mod_upper_bound; lia).
  rewrite !byte_val_of_nat by assumption.
  rewrite Nat2Z.inj_div, Nat2Z.inj_mod.
  pose proof (Z.div_mod (Z.of_nat n) 256). lia.
Qed.

Lemma firstn_length_app {A} (l t : list A) :
  firstn (List.length l) (l ++ t) = l.
Proof.
  induction l as [|a l IH]; cbn; [now destruct t | now rewrite IH].
Qed.

Lemma skipn_length_app {A} (l t : list A) :
  skipn (List.length l) (l ++ t) = t.
Proof.
  induction l as [|a l IH]; cbn; [reflexivity | exact IH].
Qed.

Lemma frames_app (fs gs : list bytes) :
  frames (fs ++ gs) = frames fs ++ frames gs.
Proof.
  unfold frames. now rewrite map_app, concat_app.
Qed.

(** A complete frame is handed to the decoder and the loop goes on. *)
Lemma loop_body_frame (limit : option Z) (c : Z) (s : run_state)
  (p tl : bytes) :
  wf_payload p ->
  limit_reached limit (message_count s) = false ->
  f s = frame p ++ tl ->
  loop_body limit c s = Continue (handle_message c p (set_f s tl)).
Proof.
  intros [Hp1 Hp2] Hlim Hf. unfold loop_body, read.
  rewrite Hlim, Hf. unfold frame. rewrite <- app_assoc.
  change (pack_H (List.length p) ++ p ++ tl)
    with (byte_of_nat (List.length p / 256)
            :: byte_of_nat (List.length p mod 256) :: p ++ tl).
  cbn [firstn skipn List.length].
  change (Nat.ltb 2 2) with false. cbv iota.
  change [byte_of_nat (List.length p / 256); byte_of_nat (List.length p mod 256)]
    with (pack_H (List.length p)).
  rewrite from_bytes_pack_H by lia.
  rewrite Nat2Z.id, firstn_length_app, skipn_length_app.
  assert (nonempty p = true) as -> by (destruct p; [cbn in Hp1; lia | reflexivity]).
  rewrite Z.ltb_irrefl. reflexivity.
Qed.

(** A length prefix that promises more bytes than the file still holds. *)
Lemma loop_body_truncated (limit : option Z) (c : Z) (s : run_state)
  (L : nat) (partial : bytes) :
  (List.length partial < L)%nat -> Z.of_nat L < 65536 ->
  limit_reached limit (message_count s) = false ->
  f s = pack_H L ++ partial ->
  loop_body limit c s = Break Incomplete (set_f s []).
Proof.
  intros Hp HL Hlim Hf. unfold loop_body, read. rewrite Hlim, Hf.
  change (pack_H L ++ partial)
    with (byte_of_nat (L / 256) :: byte_of_nat (L mod 256) :: partial).
  cbn [firstn skipn List.length].
  change (Nat.ltb 2 2) with false. cbv iota.
  change [byte_of_nat (L / 256); byte_of_nat (L mod 256)] with (pack_H L).
  rewrite from_bytes_pack_H by lia. rewrite Nat2Z.id.
  rewrite firstn_all2, skipn_all2 by lia.
  assert ((Z.of_nat (List.length partial) <? Z.of_nat L) = true) as ->
      by (apply Z.ltb_lt; lia).
  now rewrite orb_true_r.
Qed.

(** A length prefix of zero: the empty read is taken for a short one. *)
Lemma loop_body_zero_length (limit : option Z) (c : Z) (s : run_state)
  (tl : bytes) :
  limit_reached limit (message_count s) = false ->
  f s = x00 :: x00 :: tl ->
  loop_body limit c s = Break Incomplete (set_f s tl).
Proof.
  intros Hlim Hf. unfold loop_body, read. rewrite Hlim, Hf. reflexivity.
Qed.

Lemma loop_body_eof (limit : option Z) (c : Z) (s : run_state) :
  limit_reached limit (message_count s) = false ->
  (List.length (f s) < 2)%nat ->
  loop_body limit c s = Break EndOfFile (set_f s []).
Proof.
  intros Hlim Hf. unfold loop_body, read. rewrite Hlim.
  rewrite skipn_all2 by lia.
  assert (Nat.ltb (List.length (firstn 2 (f s))) 2 = true) as ->
      by (apply Nat.ltb_lt; rewrite length_firstn; lia).
  reflexivity.
Qed.

Lemma loop_body_limit (limit : option Z) (c : Z) (s : run_state) :
  limit_reached limit (message_count s) = true ->
  loop_body limit c s = Break LimitReached s.
Proof.
  intros Hlim. unfold loop_body. now rewrite Hlim.
Qed.

(** An iteration that continues has consumed at least the length prefix. *)
Lemma loop_body_consumes (limit : option Z) (c : Z) (s s' : run_state) :
  loop_body limit c s = Continue s' ->
  (List.length (f s') + 2 <= List.length (f s))%nat.
Proof.
  unfold loop_body, read.
  pose proof (length_skipn 2 (f s)) as H2.
  pose proof (length_firstn 2 (f s)) as H1.
  set (f1 := skipn 2 (f s)) in *. set (lb := firstn 2 (f s)) in *.
  destruct (limit_reached _ _); [discriminate|].
  destruct (Nat.ltb _ 2) eqn:E2; [discriminate|].
  destruct (_ || _); [discriminate|].
  intros [= <-]. rewrite handle_message_f.
  change (f (set_f s (skipn (Z.to_nat (from_bytes_big lb)) f1)))
    with (skipn (Z.to_nat (from_bytes_big lb)) f1).
  apply Nat.ltb_ge in E2. rewrite length_skipn. lia.
Qed.

Lemma loop_stable (limit : option Z) (c : Z) (n m : nat) (s : run_state) :
  (List.length (f s) < n)%nat -> (List.length (f s) < m)%nat ->
  loop n limit c s = loop m limit c s.
Proof.
  revert m s. induction n as [|n IH]; intros m s Hn Hm; [lia|].
  destruct m as [|m]; [lia|]. cbn [loop].
  destruct (loop_body limit c s) as [why s'|s'] eqn:E; [reflexivity|].
  apply loop_body_consumes in E. apply IH; lia.
Qed.

(** The loop always ends: the bound of [run_loop] is never exhausted. *)
Lemma loop_terminates (limit : option Z) (c : Z) (n : nat) (s : run_state) :
  (List.length (f s) < n)%nat ->
  exists why s', loop n limit c s = Some (why, s').
Proof.
  revert s. induction n as [|n IH]; intros s Hn; [lia|]. cbn [loop].
  destruct (loop_body limit c s) as [why s'|s'] eqn:E; [eauto|].
  apply loop_body_consumes in E. apply IH; lia.
Qed.

Lemma run_loop_continue (limit : option Z) (c : Z) (s s' : run_state) :
  loop_body limit c s = Continue s' ->
  run_loop limit c s = run_loop limit c s'.
Proof.
  intros E. unfold run_loop at 1. cbn [loop]. rewrite E.
  apply loop_body_consumes in E. unfold run_loop. apply loop_stable; lia.
Qed.

Lemma run_loop_break (limit : option Z) (c : Z) (s s' : run_state)
  (why : stop) :
  loop_body limit c s = Break why s' ->
  run_loop limit c s = Some (why, s').
Proof.
  intros E. unfold run_loop. cbn [loop]. now rewrite E.
Qed.

(** Complete frames in front of the cursor are handled one after the other,
    as long as the limit is not met. *)
Lemma run_loop_frames (limit : option Z) (c : Z) (fs : list bytes) :
  forall (s : run_state) (tl : bytes),
  Forall wf_payload fs ->
  well_keyed (message_data s) ->
  (forall k, 0 <= k < Z.of_nat (List.length fs) ->
             limit_reached limit (message_count s + k) = false) ->
  f s = frames fs ++ tl ->
  run_loop limit c s = run_loop limit c (set_f (feed c fs s) tl).
Proof.
  induction fs as [|p fs IH]; intros s tl Hwf Hk Hlim Hf.
  - cbn in Hf. cbn [feed fold_left]. rewrite <- Hf. now rewrite set_f_id.
  - inversion Hwf as [|? ? Hp Hfs]; subst.
    assert (f s = frame p ++ (frames fs ++ tl)) as Hf'.
    { rewrite Hf. unfold frames. cbn [map List.concat]. now rewrite app_assoc. }
    assert (limit_reached limit (message_count s) = false) as Hl0.
    { rewrite <- (Z.add_0_r (message_count s)). apply Hlim. cbn [List.length]. lia. }
    rewrite (run_loop_continue _ _ _ _ (loop_body_frame _ c _ _ _ Hp Hl0 Hf')).
    destruct (handle_message_counts c p (set_f s (frames fs ++ tl)) Hk)
      as [Hc Hk'].
    rewrite (IH _ tl Hfs Hk').
    + cbn [feed fold_left]. unfold feed.
      rewrite handle_message_set_f. fold (feed c fs (set_f (handle_message c p s) (frames fs ++ tl))).
      now rewrite feed_set_f, set_f_set_f.
    + intros k Hk0. rewrite Hc. cbn [set_f message_count].
      replace (message_count s + 1 + k) with (message_count s + (k + 1)) by lia.
      apply Hlim. cbn [List.length]. lia.
    + rewrite handle_message_f. reflexivity.
Qed.

(** ** Chunk arithmetic and the loop invariant *)

Lemma div_at_boundary (m c : Z) :
  0 < c -> 0 <= m -> (m + 1) mod c = 0 -> (m + 1) / c = m / c + 1.
Proof.
  intros Hc Hm H. Z.div_mod_to_equations. nia.
Qed.

Lemma div_inside_chunk (m c : Z) :
  0 < c -> 0 <= m -> (m + 1) mod c <> 0 -> (m + 1) / c = m / c.
Proof.
  intros Hc Hm H. Z.div_mod_to_equations. nia.
Qed.

Lemma ceil_div_cases (m c : Z) :
  0 < c -> 0 <= m ->
  ceil_div m c = if m mod c =? 0 then m / c else m / c + 1.
Proof.
  intros Hc Hm. unfold ceil_div.
  destruct (Z.eqb_spec (m mod c) 0) as [E|E]; Z.div_mod_to_equations; nia.
Qed.

(** [ceil_div m c] is the least number of chunks of size [c] that hold [m]. *)
Lemma ceil_div_spec (m c : Z) :
  0 < c -> c * (ceil_div m c - 1) < m <= c * ceil_div m c.
Proof.
  intros Hc. unfold ceil_div. Z.div_mod_to_equations. nia.
Qed.

Lemma filter_nonempty_tables (md : buffers) :
  Forall (fun kv => snd kv <> []) (filter (fun kv => nonempty (snd kv)) md).
Proof.
  apply Forall_forall. intros [k l] Hin. apply filter_In in Hin as [_ Hne].
  cbn in *. destruct l; [discriminate | discriminate].
Qed.

Lemma initial_invariant (c : Z) (file : bytes) :
  chunk_invariant c (initial_state file).
Proof.
  unfold chunk_invariant, initial_state.
  cbn [message_count chunk_count store message_data].
  rewrite Zdiv_0_l. repeat split; try reflexivity; try lia. constructor.
Qed.

Lemma handle_message_invariant (c : Z) (p : bytes) (s : run_state) :
  0 < c -> chunk_invariant c s -> chunk_invariant c (handle_message c p s).
Proof.
  intros Hc (Hm & Hcc & Hst & Hne & Hk & He). unfold handle_message.
  assert (exists md, match truthy (_parse_message p) with
                     | Some r => _categorize_message r (message_data s)
                     | None => Ok (message_data s)
                     end = Ok md /\ well_keyed md) as (md & -> & Hmd).
  { destruct (truthy (_parse_message p)); [now apply categorize_ok | eauto]. }
  destruct (Z.eqb_spec c 0) as [|_]; [lia|].
  pose proof (Z.div_pos (message_count s) c Hm Hc) as Hq.
  destruct (Z.eqb_spec ((message_count s + 1) mod c) 0) as [E|E];
    unfold chunk_invariant; cbn [message_count chunk_count store message_data].
  - rewrite (div_at_boundary _ _ Hc Hm E).
    repeat split.
    + lia.
    + now rewrite Hcc.
    + unfold _save_chunk_to_store. rewrite map_app, Hst. cbn [map chunk_num].
      replace (Z.to_nat (message_count s / c + 1))
        with (S (Z.to_nat (message_count s / c))) by lia.
      rewrite seq_S, map_app. cbn [map Nat.add]. rewrite Hcc. f_equal. f_equal. lia.
    + unfold _save_chunk_to_store, flushes_nonempty. apply Forall_app. split.
      * exact Hne.
      * constructor; [apply filter_nonempty_tables | constructor].
    + now apply well_keyed_clear.
    + intros _. apply all_empty_clear.
  - rewrite (div_inside_chunk _ _ Hc Hm E).
    repeat split; auto; try lia; intros H; contradiction.
Qed.

Lemma feed_invariant (c : Z) (fs : list bytes) (s : run_state) :
  0 < c -> chunk_invariant c s -> chunk_invariant c (feed c fs s).
Proof.
  intros Hc. revert s. induction fs as [|p fs IH]; intros s H; [exact H|].
  cbn [feed fold_left]. apply IH. now apply handle_message_invariant.
Qed.

Lemma run_of_message_count (c : Z) (fs : list bytes) :
  message_count (run_of c fs) = Z.of_nat (List.length fs).
Proof.
  unfold run_of.
  destruct (feed_counts c fs (initial_state []) eq_refl) as [H _].
  rewrite H. reflexivity.
Qed.

Lemma run_of_f (c : Z) (fs : list bytes) : f (run_of c fs) = [].
Proof.
  unfold run_of. now rewrite feed_f.
Qed.

Lemma set_f_run_of (c : Z) (fs : list bytes) :
  set_f (run_of c fs) [] = run_of c fs.
Proof.
  pose proof (set_f_id (run_of c fs)) as H. now rewrite run_of_f in H.
Qed.

(** ** Whole runs *)

Lemma parse_file_skips_preamble (limit : option Z) (c : Z)
  (preamble body : bytes) :
  List.length preamble = 44%nat ->
  parse_file_to_hdf5 limit c (preamble ++ body) =
  match run_loop limit c (initial_state body) with
  | None => None
  | Some (why, s) => Some (s' <- final_flush c s ;; Ok (why, s'))
  end.
Proof.
  intros H. unfold parse_file_to_hdf5, read.
  rewrite <- H. now rewrite skipn_length_app.
Qed.

(** The driver returns on every input: with a result, or with the
    uncaught ZeroDivisionError of a zero chunk size. *)
Lemma parse_file_always_returns (limit : option Z) (c : Z) (file : bytes) :
  exists r, parse_file_to_hdf5 limit c file = Some r.
Proof.
  unfold parse_file_to_hdf5, read, run_loop.
  destruct (loop_terminates limit c (S (List.length (f (initial_state (skipn 44 file)))))
              (initial_state (skipn 44 file))) as (why & s & ->); [lia|].
  eauto.
Qed.

Lemma run_loop_unlimited_frames (c : Z) (fs : list bytes) (tl : bytes) :
  Forall wf_payload fs ->
  run_loop None c (initial_state (frames fs ++ tl)) =
  run_loop None c (set_f (run_of c fs) tl).
Proof.
  intros Hwf.
  rewrite (run_loop_frames None c fs (initial_state (frames fs ++ tl)) tl Hwf);
    try reflexivity.
  change (initial_state (frames fs ++ tl))
    with (set_f (initial_state []) (frames fs ++ tl)).
  now rewrite feed_set_f, set_f_set_f.
Qed.

Lemma run_loop_to_end_of_file (c : Z) (fs : list bytes) :
  Forall wf_payload fs ->
  run_loop None c (initial_state (frames fs)) = Some (EndOfFile, run_of c fs).
Proof.
  intros Hwf.
  rewrite <- (app_nil_r (frames fs)) at 1.
  rewrite (run_loop_unlimited_frames c fs [] Hwf), set_f_run_of.
  erewrite run_loop_break; [|apply loop_body_eof].
  - now rewrite set_f_run_of.
  - reflexivity.
  - rewrite run_of_f. cbn. lia.
Qed.

Lemma final_flush_set_f (c : Z) (s : run_state) (t : bytes) :
  final_flush c (set_f s t) = (s' <- final_flush c s ;; Ok (set_f s' t)).
Proof.
  unfold final_flush. cbn [set_f message_count].
  destruct (c =? 0); [reflexivity|].
  destruct (negb _); reflexivity.
Qed.

Lemma final_flush_ok (c : Z) (s : run_state) :
  c <> 0 ->
  exists s', final_flush c s = Ok s' /\
             message_count s' = message_count s /\
             chunk_count s' = chunk_count s /\
             message_data s' = message_data s /\
             f s' = f s.
Proof.
  intros Hc. unfold final_flush.
  destruct (Z.eqb_spec c 0) as [|_]; [contradiction|].
  destruct (negb _); eexists; split; reflexivity || (repeat split; reflexivity).
Qed.

Lemma run_loop_truncated (c : Z) (fs : list bytes) (L : nat) (partial : bytes) :
  Forall wf_payload fs ->
  (List.length partial < L)%nat -> Z.of_nat L < 65536 ->
  run_loop None c (initial_state (frames fs ++ pack_H L ++ partial)) =
  Some (Incomplete, run_of c fs).
Proof.
  intros Hwf Hp HL.
  rewrite (run_loop_unlimited_frames c fs _ Hwf).
  erewrite run_loop_break;
    [|apply (loop_body_truncated None c _ L partial Hp HL); reflexivity].
  now rewrite set_f_set_f, set_f_run_of.
Qed.

Lemma run_loop_zero_length (c : Z) (fs : list bytes) (rest : bytes) :
  Forall wf_payload fs ->
  run_loop None c (initial_state (frames fs ++ x00 :: x00 :: rest)) =
  Some (Incomplete, set_f (run_of c fs) rest).
Proof.
  intros Hwf.
  rewrite (run_loop_unlimited_frames c fs _ Hwf).
  erewrite run_loop_break;
    [|apply (loop_body_zero_length None c _ rest); reflexivity].
  now rewrite set_f_set_f.
Qed.

Lemma required_length_bound (t : string) : (required_length t <= 47)%nat.
Proof.
  unfold required_length. cbn [dict_get].
  repeat match goal with
         | |- context [String.eqb t ?k] => destruct (String.eqb t k)
         end; lia.
Qed.

(** ** Claims on the frame reader and the driver *)





(** C2.  A payload shorter than the last offset its routine reads (for a
    type of the dispatch table, and for any other tag the five bytes of the
    common header) is decoded to no record, no error leaves the decoder, the
    message counter still goes up by one, and the loop continues at the
    next frame. *)
Theorem short_payload_is_dropped (limit : option Z) (c : Z) (s : run_state)
  (b0 : byte) (p tl : bytes) :
  hd_error p = Some b0 ->
  (List.length p < required_length (chr b0))%nat ->
  well_keyed (message_data s) ->
  limit_reached limit (message_count s) = false ->
  f s = frame p ++ tl ->
  _parse_message p = None /\
  exists s',
    loop_body limit c s = Continue s' /\
    message_count s' = message_count s + 1 /\
    f s' = tl /\
    (message_data s' = message_data s \/
     message_data s' = _clear_message_buffers (message_data s)) /\
    run_loop limit c s = run_loop limit c s'.
Proof.
  intros Hhd Hshort Hk Hlim Hf.
  destruct p as [|b rest]; [discriminate|]. injection Hhd as ->.
  assert (_parse_message (b0 :: rest) = None) as Hnone.
  { destruct (_parse_message (b0 :: rest)) eqn:E; [|reflexivity].
    assert (_parse_message (b0 :: rest) <> None) as H by congruence.
    apply parse_message_some_iff in H. lia. }
  split; [exact Hnone|].
  assert (wf_payload (b0 :: rest)) as Hwf.
  { pose proof (required_length_bound (chr b0)). unfold wf_payload.
    cbn [List.length] in *. lia. }
  pose proof (loop_body_frame limit c s _ tl Hwf Hlim Hf) as Hstep.
  eexists. split; [exact Hstep|].
  destruct (handle_message_counts c (b0 :: rest) (set_f s tl) Hk) as [Hc _].
  repeat split.
  - exact Hc.
  - now rewrite handle_message_f.
  - unfold handle_message. rewrite Hnone. cbn [truthy set_f message_data].
    destruct (c =? 0); [now left|].
    destruct (_ =? 0); [now right | now left].
  - now apply run_loop_continue.
Qed.

Lemma short_payload_is_dropped_witness :
  _parse_message sample_short_directory = None /\
  exists s',
    loop_body None 2
      (initial_state (frame sample_short_directory ++ frame sample_system_event))
    = Continue s' /\
    message_count s' = 1 /\
    f s' = frame sample_system_event.
Proof.
  destruct (short_payload_is_dropped None 2
              (initial_state (frame sample_short_directory
                                ++ frame sample_system_event))
              "R"%byte sample_short_directory (frame sample_system_event))
    as (H0 & s' & H1 & H2 & H3 & _).
  - reflexivity.
  - cbn. lia.
  - reflexivity.
  - reflexivity.
  - reflexivity.
  - split; [exact H0|]. exists s'. repeat split; assumption.
Defined.

Lemma map_seq_length (st : hdf_store) (n : nat) :
  map chunk_num st = map Z.of_nat (seq 0 n) -> List.length st = n.
Proof.
  intros H. apply (f_equal (@List.length Z)) in H.
  now rewrite !length_map, length_seq in H.
Qed.







(** C7 (as amended).  A payload with tag 'C' of at least the five header
    bytes has no routine of its own: it decodes through the generic branch
    to a record of exactly message_type, stock_locate, tracking_number,
    timestamp and raw_length, the categorizer appends that record to
    order_executions, and the next flush writes it.  (A shorter 'C' payload
    gives no record.) *)
Theorem executed_with_price_is_generic (message : bytes) (md : buffers) :
  hd_error message = Some "C"%byte ->
  (5 <= List.length message)%nat ->
  well_keyed md ->
  let r := [ ("message_type", VStr "C");
             ("stock_locate", VInt (from_bytes_big (slice 1 3 message)));
             ("tracking_number", VInt (from_bytes_big (slice 3 5 message)));
             ("timestamp", VInt (from_bytes_big (slice 5 11 message)));
             ("raw_length", VInt (Z.of_nat (List.length message))) ] in
  _get_parser_method "C" = None /\
  _parse_message message = Some r /\
  get "price" r = None /\ get "executed_shares" r = None /\
  (exists l md',
     dict_get "order_executions" md = Some l /\
     _categorize_message r md = Ok md' /\
     dict_get "order_executions" md' = Some (l ++ [r]) /\
     forall st n, exists tbl,
       _save_chunk_to_store st md' n = st ++ [ mkFlush n tbl ] /\
       In ("order_executions", l ++ [r]) tbl) /\
  (forall c preamble,
     List.length preamble = 44%nat -> 0 < c ->
     Z.of_nat (List.length message) < 65536 ->
     exists s,
       parse_file_to_hdf5 None c (preamble ++ frame message)
         = Some (Ok (EndOfFile, s)) /\
       store s = [ mkFlush 0 [ ("order_executions", [r]) ] ]).
Proof.
  intros Htag Hlen Hk r.
  assert (_parse_message message = Some r) as Hparse.
  { destruct message as [|b0 rest]; [discriminate|]. injection Htag as ->.
    unfold _parse_message. replace (chr "C"%byte) with "C" by reflexivity.
    subst r. revert Hlen. generalize ("C"%byte :: rest) as m. intros m Hlen.
    unfold parse_message_body, unpack_H.
    rewrite !unpack_be_slice_ok by lia. reflexivity. }
  split; [reflexivity|]. split; [exact Hparse|].
  split; [reflexivity|]. split; [reflexivity|]. split.
  - destruct (well_keyed_inv md Hk)
      as (l1 & l2 & l3 & l4 & l5 & l6 & l7 & l8 & l9 & ->).
    exists l6. eexists. split; [reflexivity|]. split; [reflexivity|].
    split; [reflexivity|].
    intros st n. eexists. split; [reflexivity|].
    apply filter_In. split.
    + cbn [In]. auto 10.
    + cbn [snd]. destruct l6; reflexivity.
  - intros c preamble Hpre Hc Hsize.
    assert (Forall wf_payload [message]) as Hwf.
    { constructor; [unfold wf_payload; lia | constructor]. }
    rewrite parse_file_skips_preamble by assumption.
    replace (frame message) with (frames [message])
      by (unfold frames; cbn [map List.concat]; apply app_nil_r).
    rewrite (run_loop_to_end_of_file c _ Hwf).
    unfold run_of, feed. cbn [fold_left]. unfold handle_message.
    rewrite Hparse. subst r. cbn [truthy].
    change (message_count (initial_state []) + 1) with 1.
    match goal with
    | |- context [_categorize_message ?x (message_data (initial_state []))] =>
        replace (_categorize_message x (message_data (initial_state [])))
          with (Ok [ ("system_events", []); ("stock_directory", []);
                     ("trading_actions", []); ("add_orders", []);
                     ("trades", []); ("order_executions", [x]);
                     ("order_cancels", []); ("order_deletes", []);
                     ("order_replaces", []) ]) by reflexivity
    end.
    destruct (Z.eqb_spec c 0) as [|_]; [lia|].
    unfold final_flush.
    destruct (Z.eqb_spec c 0) as [|_]; [lia|].
    destruct (Z.eqb_spec (1 mod c) 0) as [E|E];
      cbn [message_count store chunk_count message_data];
      destruct (Z.eqb_spec (1 mod c) 0) as [E'|E']; try contradiction;
      cbn [negb bind]; eexists; split; reflexivity.
Qed.

Lemma executed_with_price_is_generic_witness :
  _parse_message sample_executed_with_price
    = Some [ ("message_type", VStr "C"); ("stock_locate", VInt 1);
             ("tracking_number", VInt 2); ("timestamp", VInt 3);
             ("raw_length", VInt 11) ] /\
  exists md',
    _categorize_message
      [ ("message_type", VStr "C"); ("stock_locate", VInt 1);
        ("tracking_number", VInt 2); ("timestamp", VInt 3);
        ("raw_length", VInt 11) ] _initialize_message_buffers = Ok md' /\
    dict_get "order_executions" md'
      = Some [ [ ("message_type", VStr "C"); ("stock_locate", VInt 1);
                 ("tracking_number", VInt 2); ("timestamp", VInt 3);
                 ("raw_length", VInt 11) ] ].
Proof.
  assert (L : (5 <= List.length sample_executed_with_price)%nat) by (cbn; lia).
  destruct (executed_with_price_is_generic sample_executed_with_price
              _initialize_message_buffers eq_refl L eq_refl)
    as (_ & H1 & _ & _ & (l & md' & H2 & H3 & H4 & _) & _).
  split; [exact H1|]. exists md'. split; [exact H3|].
  injection H2 as <-. exact H4.
Defined.

(** C7 (as stated) fails for a 'C' payload too short for the common
    header: the header unpacking raises, and no record is produced. *)
Lemma executed_with_price_too_short :
  hd_error [ "C"%byte ] = Some "C"%byte /\
  _parse_message [ "C"%byte ] = None /\
  _parse_message [ "C"%byte; x00; x01; x00 ] = None.
Proof.
  repeat split.
Qed.

(** ** Further properties of the decoder *)

(** Copy of the header facts for use below: a returned record carries the
    tag and the three header integers. *)
Lemma record_header (message : bytes) (r : record) :
  _parse_message message = Some r ->
  get "message_type" r = Some (VStr (chr (hd x00 message))) /\
  get "stock_locate" r = Some (VInt (from_bytes_big (slice 1 3 message))) /\
  get "tracking_number" r = Some (VInt (from_bytes_big (slice 3 5 message))) /\
  get "timestamp" r = Some (VInt (from_bytes_big (slice 5 11 message))).
Proof.
  destruct message as [|b0 rest]; [discriminate|].
  unfold _parse_message. cbn [hd].
  generalize (b0 :: rest) as m. intros m.
  unfold parse_message_body, _get_parser_method, parsers, unpack_H.
  decode_step; [|discriminate]. decode_step; [|discriminate].
  cbn [dict_get].
  repeat (match goal with
          | |- context [String.eqb (chr b0) ?k] =>
              destruct (String.eqb_spec (chr b0) k) as [->|_]
          end;
          [ unfold_routines; repeat decode_step; intros H; try discriminate H;
            injection H as <-; repeat split; reflexivity | ]).
  intros H. injection H as <-. repeat split; reflexivity.
Qed.

Lemma slice_length_le (a b : nat) (m : bytes) :
  (List.length (slice a b m) <= b - a)%nat.
Proof.
  rewrite slice_length. lia.
Qed.

Lemma from_bytes_big_below (bs : bytes) (n : nat) :
  (List.length bs <= n)%nat -> 0 <= from_bytes_big bs < 256 ^ Z.of_nat n.
Proof.
  intros H. pose proof (from_bytes_big_range bs) as [H0 H1]. split; [exact H0|].
  apply Z.lt_le_trans with (1 := H1).
  apply Z.pow_le_mono_r; lia.
Qed.

(** X1.  The decoder returns a record for a payload exactly when the payload
    is not empty and reaches the last offset that the routine of its tag
    unpacks or indexes (the five header bytes for a tag without routine). *)
Theorem decoder_returns_record_iff (message : bytes) :
  _parse_message message <> None <->
  message <> [] /\
  (required_length (chr (hd x00 message)) <= List.length message)%nat.
Proof.
  destruct message as [|b0 rest].
  - cbn. split; [congruence | intros [H _]; congruence].
  - cbn [hd].
    pose proof (parse_message_body_ok (chr b0) (b0 :: rest)) as H.
    unfold _parse_message.
    destruct (parse_message_body (chr b0) (b0 :: rest)); cbn [is_ok] in H;
      symmetry in H.
    + apply Nat.leb_le in H. split; [intros _; split; [discriminate | exact H] | discriminate].
    + apply Nat.leb_gt in H. split; [congruence | intros [_ H']; lia].
Qed.

(** X2.  In every record the decoder returns the header integers fit their
    wire widths: stock_locate and tracking_number are below 2^16 and the
    timestamp is below 2^48, never negative. *)
Theorem header_fields_fit_their_width (message : bytes) (r : record) :
  _parse_message message = Some r ->
  exists sl tn ts,
    get "stock_locate" r = Some (VInt sl) /\ 0 <= sl < 2 ^ 16 /\
    get "tracking_number" r = Some (VInt tn) /\ 0 <= tn < 2 ^ 16 /\
    get "timestamp" r = Some (VInt ts) /\ 0 <= ts < 2 ^ 48.
Proof.
  intros H. destruct (record_header message r H) as (_ & H1 & H2 & H3).
  do 3 eexists. split; [exact H1|]. split.
  { apply (from_bytes_big_below _ 2). apply (slice_length_le 1 3). }
  split; [exact H2|]. split.
  { apply (from_bytes_big_below _ 2). apply (slice_length_le 3 5). }
  split; [exact H3|].
  apply (from_bytes_big_below _ 6). apply (slice_length_le 5 11).
Qed.

Lemma header_fields_fit_their_width_witness :
  exists r sl tn ts,
    _parse_message sample_executed_with_price = Some r /\
    get "stock_locate" r = Some (VInt sl) /\ 0 <= sl < 2 ^ 16 /\
    get "tracking_number" r = Some (VInt tn) /\ 0 <= tn < 2 ^ 16 /\
    get "timestamp" r = Some (VInt ts) /\ 0 <= ts < 2 ^ 48.
Proof.
  eexists.
  destruct (header_fields_fit_their_width sample_executed_with_price _ eq_refl)
    as (sl & tn & ts & H).
  exists sl, tn, ts. split; [reflexivity | exact H].
Defined.

Lemma buy_sell_of_byte (c : byte) :
  buy_sell_of c = if Byte.eqb c "B"%byte then "B" else "S".
Proof.
  unfold buy_sell_of.
  replace "B" with (chr "B"%byte) at 1 by reflexivity.
  now rewrite chr_eqb.
Qed.

(** X3.  In the record of an add order ('A' or 'F') buy_sell is 'B' when
    byte 11 is 'B' and 'S' for every other byte value: no third side is ever
    produced, and an unexpected side byte reads as a sell. *)
Theorem add_order_side_is_buy_or_sell (message : bytes) (r : record) :
  _parse_message message = Some r ->
  hd_error message = Some "A"%byte \/ hd_error message = Some "F"%byte ->
  get "buy_sell" r =
    Some (VStr (if Byte.eqb (nth 11 message x00) "B"%byte then "B" else "S")).
Proof.
  intros H Htag.
  destruct message as [|b0 rest]; [discriminate|].
  assert (b0 = "A"%byte \/ b0 = "F"%byte) as Hb
      by (destruct Htag as [E|E]; injection E; auto).
  clear Htag. revert H. unfold _parse_message.
  generalize (b0 :: rest) as m. intros m.
  unfold parse_message_body, unpack_H.
  decode_step; [|discriminate]. decode_step; [|discriminate].
  destruct Hb as [-> | ->].
  - replace (_get_parser_method (chr "A"%byte))
      with (Some _parse_add_order_no_mpid) by reflexivity.
    unfold_routines. repeat decode_step; intros H; try discriminate H.
    injection H as <-. cbn [get dict_get String.eqb Ascii.eqb Bool.eqb].
    now rewrite buy_sell_of_byte.
  - replace (_get_parser_method (chr "F"%byte))
      with (Some _parse_add_order_with_mpid) by reflexivity.
    unfold_routines. repeat decode_step; intros H; try discriminate H.
    injection H as <-. cbn [get dict_get String.eqb Ascii.eqb Bool.eqb].
    now rewrite buy_sell_of_byte.
Qed.

Lemma add_order_side_is_buy_or_sell_witness :
  exists r,
    _parse_message sample_add_order_with_mpid = Some r /\
    get "buy_sell" r = Some (VStr "S").
Proof.
  eexists. split; [reflexivity|].
  exact (add_order_side_is_buy_or_sell sample_add_order_with_mpid _ eq_refl
           (or_intror eq_refl)).
Defined.

(** X4.  The routine for 'F' is the routine for 'A' plus the MPID window:
    when the same bytes follow the tag, the 'F' payload decodes whenever the
    'A' payload does, its record has mpid = the text of bytes 35:39, and every
    other field except message_type has the value it has in the 'A'
    record. *)
Theorem add_order_with_mpid_extends_no_mpid (body : bytes) (rA : record) :
  _parse_message ("A"%byte :: body) = Some rA ->
  exists rF,
    _parse_message ("F"%byte :: body) = Some rF /\
    get "message_type" rF = Some (VStr "F") /\
    get "mpid" rF = Some (VStr (text (slice 35 39 ("F"%byte :: body)))) /\
    get "mpid" rA = None /\
    forall k, k <> "message_type" -> k <> "mpid" -> get k rF = get k rA.
Proof.
  intros H.
  assert (35 <= List.length ("A"%byte :: body))%nat as Hlen.
  { assert (_parse_message ("A"%byte :: body) <> None) as H' by congruence.
    apply parse_message_some_iff in H'. exact H'. }
  assert (35 <= List.length ("F"%byte :: body))%nat as HlenF by exact Hlen.
  revert H. unfold _parse_message.
  replace (chr "A"%byte) with "A" by reflexivity.
  replace (chr "F"%byte) with "F" by reflexivity.
  unfold parse_message_body.
  replace (_get_parser_method "A") with (Some _parse_add_order_no_mpid)
    by reflexivity.
  replace (_get_parser_method "F") with (Some _parse_add_order_with_mpid)
    by reflexivity.
  unfold_routines.
  rewrite !unpack_be_slice_ok by lia. cbn [bind].
  rewrite !getitem_ok by lia. cbn [bind].
  intros H. injection H as <-.
  eexists. split; [reflexivity|].
  split; [reflexivity|]. split; [reflexivity|]. split; [reflexivity|].
  intros k Hk1 Hk2. unfold get. cbn [dict_get].
  destruct (String.eqb_spec k "message_type"); [contradiction|].
  repeat match goal with
         | |- context [String.eqb k ?x] => destruct (String.eqb k x) eqn:?
         end; try reflexivity.
  match goal with
  | E : String.eqb k "mpid" = true |- _ =>
      apply String.eqb_eq in E; contradiction
  end.
Qed.

Lemma add_order_with_mpid_extends_no_mpid_witness :
  exists rA rF,
    _parse_message sample_add_order = Some rA /\
    _parse_message ("F"%byte :: List.tl sample_add_order) = Some rF /\
    get "price" rF = get "price" rA /\
    get "mpid" rF = Some (VStr "").
Proof.
  eexists.
  destruct (add_order_with_mpid_extends_no_mpid (List.tl sample_add_order) _ eq_refl)
    as (rF & H1 & _ & H2 & _ & H3).
  exists rF. split; [reflexivity|]. split; [exact H1|]. split.
  - apply H3; discriminate.
  - exact H2.
Defined.

(** X5.  A payload whose tag is not one of the eleven the categorizer tests
    for, and that holds the five header bytes, is decoded to the generic
    record and then dropped by the categorizer: every bucket stays as it
    was. *)
Theorem unmapped_type_is_decoded_but_not_bucketed
  (message : bytes) (b0 : byte) (md : buffers) :
  hd_error message = Some b0 ->
  ~ In (chr b0) categorized_tags ->
  (5 <= List.length message)%nat ->
  exists r,
    _parse_message message = Some r /\
    get "raw_length" r = Some (VInt (Z.of_nat (List.length message))) /\
    _categorize_message r md = Ok md.
Proof.
  intros Htag Hnot Hlen.
  destruct message as [|b rest]; [discriminate|]. injection Htag as ->.
  assert (forall k, In k categorized_tags -> String.eqb (chr b0) k = false) as Hne.
  { intros k Hk. apply String.eqb_neq. intros E. apply Hnot. now rewrite E. }
  unfold categorized_tags in Hne.
  unfold _parse_message. revert Hlen.
  generalize (b0 :: rest) as m. intros m Hlen.
  unfold parse_message_body, unpack_H, _get_parser_method, parsers.
  rewrite !unpack_be_slice_ok by lia. cbn [bind dict_get].
  rewrite !Hne by (cbn [In]; auto 12).
  eexists. split; [reflexivity|]. split; [reflexivity|].
  unfold _categorize_message, get. cbn [dict_get String.eqb Ascii.eqb Bool.eqb value_is].
  rewrite !Hne by (cbn [In]; auto 12). reflexivity.
Qed.

Lemma unmapped_type_is_decoded_but_not_bucketed_witness :
  exists r,
    _parse_message [ "Y"%byte; x00; x01; x00; x02 ] = Some r /\
    get "raw_length" r = Some (VInt 5) /\
    _categorize_message r _initialize_message_buffers
      = Ok _initialize_message_buffers.
Proof.
  apply (unmapped_type_is_decoded_but_not_bucketed
           [ "Y"%byte; x00; x01; x00; x02 ] "Y"%byte _initialize_message_buffers).
  - reflexivity.
  - cbn. intuition discriminate.
  - cbn. lia.
Defined.

(** ** Further properties of text windows *)

Lemma decode_ascii_length (bs : bytes) :
  (String.length (decode_ascii_ignore bs) <= List.length bs)%nat.
Proof.
  induction bs as [|b bs IH]; cbn; [lia|].
  destruct (is_ascii b); cbn; lia.
Qed.

Lemma nat_of_ascii_of_byte (b : byte) :
  nat_of_ascii (ascii_of_byte b) = Byte.to_nat b.
Proof.
  destruct b; reflexivity.
Qed.

Lemma decode_ascii_seven_bit (bs : bytes) :
  Forall (fun a => (nat_of_ascii a < 128)%nat)
         (list_ascii_of_string (decode_ascii_ignore bs)).
Proof.
  induction bs as [|b bs IH]; cbn; [constructor|].
  destruct (is_ascii b) eqn:E; [|exact IH].
  cbn. constructor; [|exact IH].
  unfold is_ascii, byte_val in E. apply Z.ltb_lt in E.
  rewrite Byte.to_N_via_nat in E. rewrite nat_of_ascii_of_byte. lia.
Qed.

Lemma strip_nul_length (w : bytes) :
  (List.length (strip_nul w) <= List.length w)%nat.
Proof.
  unfold strip_nul.
  destruct (lstrip_nul_split w) as [lead [E1 _]].
  destruct (rstrip_nul_split (lstrip_nul w)) as [trail [E2 _]].
  rewrite E1 at 2. rewrite E2 at 2. rewrite !length_app. lia.
Qed.

Lemma lstrip_nul_all (w : bytes) : Forall (eq x00) w -> lstrip_nul w = [].
Proof.
  induction 1 as [|b w Hb _ IH]; [reflexivity|]. subst b. exact IH.
Qed.

(** X6.  The text of a window is never longer than the window, holds only
    7-bit characters, and is empty when the window is all NUL padding. *)
Theorem text_is_short_and_seven_bit (window : bytes) :
  (String.length (text window) <= List.length window)%nat /\
  Forall (fun a => (nat_of_ascii a < 128)%nat)
         (list_ascii_of_string (text window)) /\
  (Forall (eq x00) window -> text window = "").
Proof.
  unfold text. repeat split.
  - pose proof (decode_ascii_length (strip_nul window)).
    pose proof (strip_nul_length window). lia.
  - apply decode_ascii_seven_bit.
  - intros H. unfold strip_nul. now rewrite (lstrip_nul_all window H).
Qed.

(** ** Further properties of the driver, on any input *)

Lemma loop_body_shape (limit : option Z) (c : Z) (s : run_state) :
  match loop_body limit c s with
  | Break _ s1 => exists t, s1 = set_f s t
  | Continue s1 => exists p t, s1 = handle_message c p (set_f s t)
  end.
Proof.
  unfold loop_body, read.
  destruct (limit_reached _ _).
  { exists (f s). now rewrite set_f_id. }
  destruct (Nat.ltb _ 2); [eauto|].
  destruct (_ || _); eauto.
Qed.

(** What the decoding step and the moves of the file cursor preserve holds
    when the loop is left. *)
Lemma loop_invariant (P : run_state -> Prop) (limit : option Z) (c : Z) :
  (forall s t, P s -> P (set_f s t)) ->
  (forall p s, P s -> P (handle_message c p s)) ->
  forall n s why s',
    P s -> loop n limit c s = Some (why, s') -> P s'.
Proof.
  intros Hset Hhandle. induction n as [|n IH]; intros s why s' HP; [discriminate|].
  cbn [loop]. pose proof (loop_body_shape limit c s) as Hshape.
  destruct (loop_body limit c s) as [w s1|s1].
  - destruct Hshape as [t ->]. intros [= <- <-]. now apply Hset.
  - destruct Hshape as (p & t & ->). apply IH. now apply Hhandle, Hset.
Qed.

Lemma run_loop_returns (limit : option Z) (c : Z) (s : run_state) :
  exists why s', run_loop limit c s = Some (why, s').
Proof.
  unfold run_loop. apply loop_terminates. lia.
Qed.

Lemma chunk_invariant_set_f (c : Z) (s : run_state) (t : bytes) :
  chunk_invariant c s -> chunk_invariant c (set_f s t).
Proof.
  intros H. exact H.
Qed.

Lemma final_flush_accounting (c : Z) (s : run_state) :
  0 < c -> chunk_invariant c s ->
  exists s',
    final_flush c s = Ok s' /\
    message_count s' = message_count s /\
    chunk_count s' = chunk_count s /\
    Z.of_nat (List.length (store s')) = ceil_div (message_count s) c /\
    map chunk_num (store s') = map Z.of_nat (seq 0 (List.length (store s'))) /\
    flushes_nonempty (store s').
Proof.
  intros Hc (Hm & Hcc & Hst & Hne & Hk & He).
  pose proof (Z.div_pos (message_count s) c Hm Hc) as Hq.
  pose proof (map_seq_length _ _ Hst) as Hlen.
  unfold final_flush. destruct (Z.eqb_spec c 0) as [|_]; [lia|].
  rewrite (ceil_div_cases _ c Hc Hm).
  destruct (Z.eqb_spec (message_count s mod c) 0) as [E|E]; cbn [negb].
  - exists s. rewrite Hlen. repeat split; auto. lia.
  - eexists. split; [reflexivity|].
    cbn [message_count store chunk_count].
    unfold _save_chunk_to_store. rewrite length_app, Hlen. cbn [List.length].
    repeat split; auto; try lia.
    + replace (Z.to_nat (message_count s / c) + 1)%nat
        with (S (Z.to_nat (message_count s / c))) by lia.
      rewrite seq_S, !map_app, Hst. cbn [map chunk_num Nat.add].
      rewrite Hcc. f_equal. f_equal. lia.
    + apply Forall_app. split; [exact Hne|].
      constructor; [apply filter_nonempty_tables | constructor].
Qed.



(** X8.  With chunk size 0 the run always ends in the ZeroDivisionError of
    the final test, whatever the file and the limit; before that the loop has
    run to its end (the same error is swallowed inside it) without a single
    flush. *)
Theorem zero_chunksize_always_raises (limit : option Z) (file : bytes) :
  parse_file_to_hdf5 limit 0 file = Some (Raise ZeroDivisionError) /\
  exists why s,
    run_loop limit 0 (initial_state (skipn 44 file)) = Some (why, s) /\
    store s = [] /\ chunk_count s = 0.
Proof.
  destruct (run_loop_returns limit 0 (initial_state (skipn 44 file)))
    as (why & s & Hrun).
  split.
  - unfold parse_file_to_hdf5, read. rewrite Hrun. reflexivity.
  - exists why, s. split; [exact Hrun|].
    apply (loop_invariant (fun s => store s = [] /\ chunk_count s = 0) limit 0)
      with (n := S (List.length (f (initial_state (skipn 44 file)))))
           (s := initial_state (skipn 44 file)) (why := why).
    + intros s0 t H. exact H.
    + intros p s0 H. unfold handle_message.
      destruct (match truthy (_parse_message p) with
                | Some r => _categorize_message r (message_data s0)
                | None => Ok (message_data s0)
                end); exact H.
    + split; reflexivity.
    + exact Hrun.
Qed.

(** X9.  A limit of 0 is no limit: the test [limit and ...] is false for it,
    so the run is the unlimited one, on every file and chunk size. *)
Theorem limit_zero_is_no_limit (c : Z) (file : bytes) :
  parse_file_to_hdf5 (Some 0) c file = parse_file_to_hdf5 None c file.
Proof.
  assert (forall n s, loop n (Some 0) c s = loop n None c s) as Hloop.
  { induction n as [|n IH]; intros s; [reflexivity|]. cbn [loop].
    change (loop_body (Some 0) c s) with (loop_body None c s).
    destruct (loop_body None c s); [reflexivity | apply IH]. }
  unfold parse_file_to_hdf5, read, run_loop. now rewrite Hloop.
Qed.

(** X10.  A negative limit is met at once: no frame is read, no message is
    counted and nothing is flushed. *)
Theorem negative_limit_reads_nothing (l c : Z) (file : bytes) :
  l < 0 -> c <> 0 ->
  parse_file_to_hdf5 (Some l) c file
    = Some (Ok (LimitReached, initial_state (skipn 44 file))).
Proof.
  intros Hl Hc. unfold parse_file_to_hdf5, read.
  erewrite run_loop_break; [|apply loop_body_limit].
  - unfold final_flush. destruct (Z.eqb_spec c 0) as [|_]; [contradiction|].
    cbn [initial_state message_count]. rewrite Zmod_0_l. reflexivity.
  - cbn [initial_state message_count]. unfold limit_reached.
    destruct (Z.eqb_spec l 0) as [|_]; [lia|].
    destruct (Z.leb_spec l 0); [reflexivity | lia].
Qed.

Lemma negative_limit_reads_nothing_witness :
  parse_file_to_hdf5 (Some (-1)) 5 (sample_file 3)
    = Some (Ok (LimitReached,
                initial_state (frames (repeat sample_system_event 3)))).
Proof.
  apply (negative_limit_reads_nothing (-1) 5 (sample_file 3)); lia.
Defined.

Lemma limit_not_reached_below (l k : Z) :
  k < l -> limit_reached (Some l) k = false.
Proof.
  intros H. unfold limit_reached.
  destruct (Z.leb_spec l k); [lia | apply andb_false_r].
Qed.

Lemma run_loop_limited_frames (l c : Z) (fs : list bytes) (tl : bytes) :
  Forall wf_payload fs ->
  Z.of_nat (List.length fs) <= l ->
  run_loop (Some l) c (initial_state (frames fs ++ tl)) =
  run_loop (Some l) c (set_f (run_of c fs) tl).
Proof.
  intros Hwf Hl.
  rewrite (run_loop_frames (Some l) c fs (initial_state (frames fs ++ tl)) tl Hwf).
  - change (initial_state (frames fs ++ tl))
      with (set_f (initial_state []) (frames fs ++ tl)).
    now rewrite feed_set_f, set_f_set_f.
  - reflexivity.
  - intros k Hk. cbn [initial_state message_count].
    apply limit_not_reached_below. lia.
  - reflexivity.
Qed.



(** X12.  A limit above the number of frames of a well-formed file changes
    nothing: the run is the unlimited one. *)
Theorem limit_above_frame_count_is_idle (l c : Z) (preamble : bytes)
  (fs : list bytes) :
  List.length preamble = 44%nat ->
  Forall wf_payload fs ->
  Z.of_nat (List.length fs) < l ->
  parse_file_to_hdf5 (Some l) c (preamble ++ frames fs)
    = parse_file_to_hdf5 None c (preamble ++ frames fs).
Proof.
  intros Hpre Hwf Hl.
  rewrite !parse_file_skips_preamble by assumption.
  rewrite (run_loop_to_end_of_file c fs Hwf).
  rewrite <- (app_nil_r (frames fs)).
  rewrite (run_loop_limited_frames l c fs [] Hwf) by lia.
  rewrite set_f_run_of.
  erewrite run_loop_break; [|apply loop_body_eof].
  - now rewrite set_f_run_of.
  - rewrite run_of_message_count. apply limit_not_reached_below. lia.
  - rewrite run_of_f. cbn. lia.
Qed.

Lemma limit_above_frame_count_is_idle_witness :
  parse_file_to_hdf5 (Some 9) 2 (sample_file 3)
    = parse_file_to_hdf5 None 2 (sample_file 3).
Proof.
  apply (limit_above_frame_count_is_idle 9 2 sample_preamble
           (repeat sample_system_event 3)).
  - reflexivity.
  - repeat constructor.
  - cbn. lia.
Defined.

(** X13.  A file of at most 45 bytes (the preamble, cut short or followed by
    a single byte, or nothing at all) gives an empty run: end of file at once,
    no message, no flush, empty buckets. *)
Theorem short_file_gives_empty_run (limit : option Z) (c : Z) (file : bytes) :
  (List.length file <= 45)%nat ->
  limit_reached limit 0 = false ->
  c <> 0 ->
  parse_file_to_hdf5 limit c file = Some (Ok (EndOfFile, initial_state [])).
Proof.
  intros Hlen Hlim Hc. unfold parse_file_to_hdf5, read.
  erewrite run_loop_break; [|apply loop_body_eof].
  - unfold final_flush. destruct (Z.eqb_spec c 0) as [|_]; [contradiction|].
    cbn [set_f initial_state message_count]. rewrite Zmod_0_l. reflexivity.
  - exact Hlim.
  - cbn [initial_state f]. rewrite length_skipn. lia.
Qed.

Lemma short_file_gives_empty_run_witness :
  parse_file_to_hdf5 None 100000 [] = Some (Ok (EndOfFile, initial_state [])).
Proof.
  apply (short_file_gives_empty_run None 100000 []).
  - cbn. lia.
  - reflexivity.
  - lia.
Defined.

(** ** Accounting of records across flushes *)

Lemma dict_get_not_in {V : Type} (k : string) (d : list (string * V)) :
  ~ In k (map fst d) -> dict_get k d = None.
Proof.
  induction d as [|[k' v] d IH]; cbn; [reflexivity|].
  intros H. destruct (String.eqb_spec k k') as [->|_].
  - exfalso. apply H. now left.
  - apply IH. intros Hin. apply H. now right.
Qed.

Lemma filter_keys_incl {V : Type} (p : string * V -> bool)
  (d : list (string * V)) (k : string) :
  In k (map fst (filter p d)) -> In k (map fst d).
Proof.
  intros H. apply in_map_iff in H as (kv & <- & Hin).
  apply filter_In in Hin as [Hin _]. now apply in_map.
Qed.

Lemma filter_keys_nodup {V : Type} (p : string * V -> bool)
  (d : list (string * V)) :
  NoDup (map fst d) -> NoDup (map fst (filter p d)).
Proof.
  induction d as [|kv d IH]; cbn; [auto|].
  intros H. inversion H as [|? ? Hnot Hd]; subst.
  destruct (p kv); [|auto]. cbn. constructor; [|auto].
  intros Hin. apply Hnot. now apply filter_keys_incl in Hin.
Qed.

Lemma bucket_filter_nonempty (k : string) (md : buffers) :
  NoDup (map fst md) ->
  bucket k (filter (fun kv => nonempty (snd kv)) md) = bucket k md.
Proof.
  unfold bucket. induction md as [|[k' l] md IH]; [reflexivity|].
  cbn [map fst]. intros H. inversion H as [|? ? Hnot Hd]; subst.
  cbn [filter snd]. destruct l as [|r l]; cbn [nonempty dict_get].
  - destruct (String.eqb_spec k k') as [->|_]; [|auto].
    rewrite dict_get_not_in; [reflexivity|].
    intros Hin. apply Hnot. now apply filter_keys_incl in Hin.
  - destruct (String.eqb k k'); [reflexivity | auto].
Qed.

Lemma bucket_names_nodup : NoDup bucket_names.
Proof.
  unfold bucket_names, _initialize_message_buffers. cbn [map fst].
  repeat (constructor; [cbn [In]; intuition discriminate|]). constructor.
Qed.

Lemma well_keyed_nodup (md : buffers) :
  well_keyed md -> NoDup (map fst md).
Proof.
  unfold well_keyed. intros ->. exact bucket_names_nodup.
Qed.

Lemma bucket_clear (k : string) (md : buffers) :
  bucket k (_clear_message_buffers md) = [].
Proof.
  unfold bucket. induction md as [|[k' l] md IH]; [reflexivity|].
  cbn [_clear_message_buffers map fst dict_get].
  destruct (String.eqb k k'); [reflexivity | exact IH].
Qed.

Lemma bucket_all_empty (k : string) (md : buffers) :
  all_empty md = true -> bucket k md = [].
Proof.
  unfold bucket. induction md as [|[k' l] md IH]; [reflexivity|].
  cbn [all_empty forallb snd dict_get]. intros H.
  apply andb_prop in H as [Hl Hmd].
  destruct (String.eqb k k'); [|now apply IH].
  destruct l; [reflexivity | discriminate].
Qed.

Lemma flushed_snoc (k : string) (st : hdf_store) (fl : flush) :
  flushed k (st ++ [fl]) = flushed k st ++ bucket k (tables fl).
Proof.
  unfold flushed. rewrite map_app, concat_app. cbn [map List.concat].
  now rewrite app_nil_r.
Qed.

(** The categorizer appends to one bucket and touches no other. *)
Lemma categorize_bucket (k : string) (r : record) (md md' : buffers) :
  well_keyed md -> In k bucket_names ->
  _categorize_message r md = Ok md' ->
  bucket k md' =
  bucket k md ++
  match _categorize_message r _initialize_message_buffers with
  | Ok m => bucket k m
  | Raise _ => []
  end.
Proof.
  intros Hk Hin.
  destruct (well_keyed_inv md Hk)
    as (l1 & l2 & l3 & l4 & l5 & l6 & l7 & l8 & l9 & ->).
  unfold _categorize_message.
  unfold bucket_names, _initialize_message_buffers in Hin. cbn [map fst In] in Hin.
  repeat match goal with
         | |- context [if ?c then _ else _] => destruct c
         end;
    intros [= <-];
    repeat (destruct Hin as [<-|Hin]; [cbn; now rewrite ?app_nil_r|]);
    contradiction.
Qed.

Lemma handle_message_conserves (c : Z) (p : bytes) (s : run_state)
  (k : string) :
  well_keyed (message_data s) -> In k bucket_names ->
  flushed k (store (handle_message c p s))
    ++ bucket k (message_data (handle_message c p s))
  = (flushed k (store s) ++ bucket k (message_data s)) ++ kept k p.
Proof.
  intros Hk Hin. unfold handle_message, kept.
  assert (exists md,
            match truthy (_parse_message p) with
            | Some r => _categorize_message r (message_data s)
            | None => Ok (message_data s)
            end = Ok md /\ well_keyed md /\
            bucket k md =
            bucket k (message_data s) ++
            match truthy (_parse_message p) with
            | Some r =>
                match _categorize_message r _initialize_message_buffers with
                | Ok m => bucket k m
                | Raise _ => []
                end
            | None => []
            end) as (md & -> & Hmd & Hb).
  { destruct (truthy (_parse_message p)) as [r|].
    - destruct (categorize_ok r (message_data s) Hk) as (md & E & Hmd).
      exists md. split; [exact E|]. split; [exact Hmd|].
      now apply categorize_bucket.
    - exists (message_data s). now rewrite app_nil_r. }
  destruct (c =? 0); [|destruct (_ =? 0)];
    cbn [store message_data].
  - now rewrite Hb, app_assoc.
  - unfold _save_chunk_to_store. rewrite flushed_snoc. cbn [tables].
    rewrite bucket_filter_nonempty by now apply well_keyed_nodup.
    now rewrite bucket_clear, app_nil_r, Hb, app_assoc.
  - now rewrite Hb, app_assoc.
Qed.

Lemma feed_conserves (c : Z) (fs : list bytes) (s : run_state) (k : string) :
  well_keyed (message_data s) -> In k bucket_names ->
  flushed k (store (feed c fs s)) ++ bucket k (message_data (feed c fs s))
  = (flushed k (store s) ++ bucket k (message_data s))
    ++ List.concat (map (kept k) fs).
Proof.
  revert s. induction fs as [|p fs IH]; intros s Hk Hin.
  - cbn. now rewrite app_nil_r.
  - cbn [feed fold_left map List.concat].
    destruct (handle_message_counts c p s Hk) as [_ Hk'].
    unfold feed in IH. rewrite (IH _ Hk' Hin).
    rewrite handle_message_conserves by assumption.
    now rewrite <- !app_assoc.
Qed.



(** ** Strings: digits, substrings and splitting *)

Lemma string_append_assoc (a b c : string) :
  ((a ++ b) ++ c)%string = (a ++ (b ++ c))%string.
Proof.
  induction a as [|x a IH]; cbn; [reflexivity | now rewrite IH].
Qed.

Lemma all_chars_impl (p q : ascii -> bool) (s : string) :
  (forall a, p a = true -> q a = true) ->
  all_chars p s = true -> all_chars q s = true.
Proof.
  intros Hpq. induction s as [|a s IH]; cbn; [reflexivity|].
  intros H. apply andb_prop in H as [Ha Hs]. now rewrite (Hpq a Ha), IH.
Qed.

Lemma string_of_uint_digits (d : Decimal.uint) :
  all_chars is_digit (NilEmpty.string_of_uint d) = true.
Proof.
  induction d; cbn [NilEmpty.string_of_uint all_chars]; try rewrite IHd;
    reflexivity.
Qed.

Lemma starts_with_app_digits (sub pre ds : string) :
  all_chars (fun a => negb (is_digit a)) sub = true ->
  all_chars is_digit ds = true ->
  starts_with sub (pre ++ ds) = starts_with sub pre.
Proof.
  revert pre. induction sub as [|a sub IH]; intros pre Hsub Hds.
  - now destruct pre, ds.
  - cbn [all_chars] in Hsub. apply andb_prop in Hsub as [Ha Hsub].
    destruct pre as [|c pre]; cbn [append starts_with].
    + destruct ds as [|b ds]; [reflexivity|]. cbn [starts_with].
      cbn [all_chars] in Hds. apply andb_prop in Hds as [Hb _].
      destruct (Ascii.eqb_spec a b) as [->|_]; [|reflexivity].
      rewrite Hb in Ha. discriminate.
    + now rewrite IH.
Qed.

Lemma is_substring_app_digits (sub pre ds : string) :
  all_chars (fun a => negb (is_digit a)) sub = true ->
  all_chars is_digit ds = true ->
  is_substring sub (pre ++ ds) = is_substring sub pre.
Proof.
  intros Hsub Hds. induction pre as [|c pre IH].
  - cbn [append]. clear - Hsub Hds.
    induction ds as [|b ds IH]; [reflexivity|].
    cbn [is_substring].
    pose proof (starts_with_app_digits sub "" (String b ds) Hsub Hds) as H.
    cbn [append] in H. rewrite H.
    cbn [all_chars] in Hds. apply andb_prop in Hds as [_ Hds].
    rewrite (IH Hds). cbn [is_substring].
    now destruct (starts_with sub "").
  - cbn [append is_substring]. rewrite IH.
    pose proof (starts_with_app_digits sub (String c pre) ds Hsub Hds) as H.
    cbn [append] in H. now rewrite H.
Qed.

Lemma split_on_no_sep (sep : ascii) (s : string) :
  all_chars (fun a => negb (Ascii.eqb a sep)) s = true ->
  split_on sep s = [ s ].
Proof.
  induction s as [|c s IH]; cbn [all_chars split_on]; [reflexivity|].
  intros H. apply andb_prop in H as [Hc Hs].
  apply negb_true_iff in Hc. now rewrite Hc, (IH Hs).
Qed.

Lemma split_on_app_sep (sep : ascii) (w t : string) :
  all_chars (fun a => negb (Ascii.eqb a sep)) w = true ->
  split_on sep (w ++ String sep t) = w :: split_on sep t.
Proof.
  induction w as [|c w IH]; cbn [all_chars append split_on].
  - intros _. now rewrite Ascii.eqb_refl.
  - intros H. apply andb_prop in H as [Hc Hw].
    apply negb_true_iff in Hc. now rewrite Hc, (IH Hw).
Qed.

Lemma last_split_on_app_sep (sep : ascii) (s1 s2 d : string) :
  last (split_on sep (s1 ++ String sep s2)) d = last (split_on sep s2) d /\
  (2 <= List.length (split_on sep (s1 ++ String sep s2)))%nat.
Proof.
  assert (forall s, (1 <= List.length (split_on sep s))%nat) as Hnn.
  { induction s as [|c s IH]; cbn [split_on]; [cbn; lia|].
    destruct (Ascii.eqb c sep); [cbn; lia|].
    destruct (split_on sep s); cbn in *; lia. }
  induction s1 as [|c s1 [IH1 IH2]]; cbn [append split_on].
  - rewrite Ascii.eqb_refl. pose proof (Hnn s2).
    destruct (split_on sep s2); cbn [List.length] in *; [lia|].
    split; [reflexivity | lia].
  - destruct (Ascii.eqb c sep).
    + destruct (split_on sep (s1 ++ String sep s2)) as [|w ws];
        cbn [List.length] in *; [lia|]. split; [exact IH1 | lia].
    + destruct (split_on sep (s1 ++ String sep s2)) as [|w [|w' ws]];
        cbn [List.length] in *; try lia.
      split; [exact IH1 | lia].
Qed.

(** ** The keys of the store *)

Lemma pad_zeros_value (k : nat) (d : Decimal.uint) :
  N.of_uint (pad_zeros k d) = N.of_uint d.
Proof.
  induction k as [|k IH]; [reflexivity | exact IH].
Qed.

Lemma pad_zeros_nonnil (k : nat) (d : Decimal.uint) :
  d <> Decimal.Nil -> pad_zeros k d <> Decimal.Nil.
Proof.
  destruct k; cbn; [auto | discriminate].
Qed.

Lemma to_uint_nonnil (n : N) : N.to_uint n <> Decimal.Nil.
Proof.
  intros H. pose proof (DecimalN.Unsigned.of_to n) as E. rewrite H in E.
  cbn in E. subst n. discriminate H.
Qed.

(** For a chunk number that is not negative the formatted field is a
    non-empty digit string that writes the number. *)
Lemma format_04d_digits (n : Z) :
  0 <= n ->
  exists d, d <> Decimal.Nil /\
            format_04d n = NilEmpty.string_of_uint d /\
            Z.of_N (N.of_uint d) = n.
Proof.
  intros Hn. unfold format_04d.
  destruct (Z.ltb_spec n 0) as [|_]; [lia|].
  exists (zfill 4 (N.to_uint (Z.to_N n))). unfold zfill. repeat split.
  - apply pad_zeros_nonnil, to_uint_nonnil.
  - rewrite pad_zeros_value, DecimalN.Unsigned.of_to. lia.
Qed.

Lemma format_04d_all_digits (n : Z) :
  0 <= n -> all_chars is_digit (format_04d n) = true.
Proof.
  intros Hn. destruct (format_04d_digits n Hn) as (d & _ & -> & _).
  apply string_of_uint_digits.
Qed.

Lemma int_of_digits_reads : reads_digits int_of_digits.
Proof.
  intros d Hd. unfold int_of_digits. rewrite NilEmpty.usu.
  destruct d; [contradiction | reflexivity ..].
Qed.

Lemma hdf_key_split (b : string) (n : Z) :
  hdf_key b n = ((("/" ++ b) ++ "/chunk_") ++ format_04d n)%string.
Proof.
  unfold hdf_key. now rewrite !string_append_assoc.
Qed.

Lemma valid_has_no_digit (d : string) :
  In d valid_data_types ->
  all_chars (fun a => negb (is_digit a)) d = true /\
  all_chars (fun a => negb (Ascii.eqb a "/")) d = true.
Proof.
  unfold valid_data_types. cbn [In].
  intros H. repeat (destruct H as [<-|H]; [split; reflexivity|]). contradiction.
Qed.

(** [data_type in key] holds for the keys of that data type and for no key
    of another one. *)
Lemma key_contains (d b : string) (n : Z) :
  In d valid_data_types -> In b valid_data_types -> 0 <= n ->
  is_substring d (hdf_key b n) = String.eqb b d.
Proof.
  intros Hd Hb Hn. rewrite hdf_key_split.
  rewrite is_substring_app_digits;
    [| apply (valid_has_no_digit d Hd) | now apply format_04d_all_digits].
  unfold valid_data_types in Hd, Hb. cbn [In] in Hd, Hb.
  repeat (destruct Hd as [<-|Hd]; [
    repeat (destruct Hb as [<-|Hb]; [vm_compute; reflexivity|]); contradiction|]).
  contradiction.
Qed.

(** [key.split('_')[-1]] is the formatted chunk number. *)
Lemma key_chunk_field (b : string) (n : Z) :
  0 <= n -> last (split_on "_" (hdf_key b n)) "" = format_04d n.
Proof.
  intros Hn. unfold hdf_key.
  replace ("/" ++ b ++ "/chunk_" ++ format_04d n)%string
    with ((("/" ++ b) ++ "/chunk") ++ String "_" (format_04d n))%string
    by (now rewrite !string_append_assoc).
  destruct (last_split_on_app_sep "_" (("/" ++ b) ++ "/chunk")%string
              (format_04d n) "")
    as [-> _].
  rewrite split_on_no_sep; [reflexivity|].
  apply all_chars_impl with (2 := format_04d_all_digits n Hn).
  intros a Ha. destruct (Ascii.eqb_spec a "_") as [->|_]; [discriminate | reflexivity].
Qed.

(** [key.split('/')[1]] is the data type. *)
Lemma key_data_type (b : string) (n : Z) :
  In b valid_data_types -> data_type_of_key (hdf_key b n) = b.
Proof.
  intros Hb. unfold data_type_of_key, hdf_key.
  cbn [append is_substring starts_with Ascii.eqb Bool.eqb andb orb split_on].
  rewrite split_on_app_sep by apply (valid_has_no_digit b Hb).
  cbn [List.length nth].
  destruct (split_on "/" ("chunk_" ++ format_04d n)%string); reflexivity.
Qed.

(** ** Reading back *)

Lemma int_of_key_chunk (py_int : string -> option Z) (b : string) (n : Z) :
  reads_digits py_int -> 0 <= n ->
  py_int (last (split_on "_" (hdf_key b n)) "") = Some n.
Proof.
  intros Hint Hn. rewrite key_chunk_field by assumption.
  destruct (format_04d_digits n Hn) as (d & Hd & -> & Hv).
  now rewrite Hint, Hv.
Qed.

Lemma existsb_valid (d : string) :
  In d valid_data_types -> existsb (String.eqb d) valid_data_types = true.
Proof.
  intros H. apply existsb_exists. exists d. split; [exact H | apply String.eqb_refl].
Qed.

Lemma existsb_invalid (d : string) :
  ~ In d valid_data_types -> existsb (String.eqb d) valid_data_types = false.
Proof.
  intros H. destruct (existsb (String.eqb d) valid_data_types) eqn:E; [|reflexivity].
  apply existsb_exists in E as (x & Hx & Heq). apply String.eqb_eq in Heq.
  subst x. contradiction.
Qed.

(** X15.  On a store whose keys were written by the parser,
    [read_itch_hdf5] for a valid data type returns the rows of the tables of
    that data type, in the order of the keys, and of no other: the substring
    test of line 52 never takes a key of another bucket.  With [chunks]
    given, the tables kept are those whose chunk number is listed.  For a
    data type outside the nine names it raises ValueError, whatever the
    store holds. *)
Theorem read_back_selects_bucket_and_chunks (row : Type)
  (py_int : string -> option Z) (entries : list (string * Z * list row))
  (data_type : string) (chunks : option (list Z)) :
  reads_digits py_int ->
  In data_type valid_data_types ->
  Forall parser_entry entries ->
  read_itch_hdf5 row py_int (keyed_store entries) data_type chunks =
  Returns
    (List.concat
       (map snd
          (filter (fun e =>
                     String.eqb (fst (fst e)) data_type &&
                     match chunks with
                     | Some cs => existsb (Z.eqb (snd (fst e))) cs
                     | None => true
                     end) entries))) /\
  (forall store bad,
     ~ In bad valid_data_types ->
     read_itch_hdf5 row py_int store bad chunks = Raises ValueError).
Proof.
  intros Hint Hd Hall. split.
  - unfold read_itch_hdf5. rewrite (existsb_valid _ Hd). cbn [negb].
    f_equal. f_equal.
    induction Hall as [|[[b n] rows] entries [Hb Hn] _ IH]; [reflexivity|].
    cbn [fst snd] in Hb, Hn.
    cbn [keyed_store map filter fst snd].
    rewrite (key_contains data_type b n Hd Hb Hn).
    assert (match chunks with
            | Some cs => chunk_selected py_int (hdf_key b n) cs
            | None => true
            end
            = match chunks with
              | Some cs => existsb (Z.eqb n) cs
              | None => true
              end) as ->.
    { destruct chunks as [cs|]; [|reflexivity].
      unfold chunk_selected. now rewrite (int_of_key_chunk py_int b n Hint Hn). }
    destruct (_ && _); cbn [map snd]; unfold keyed_store in IH; now rewrite IH.
  - intros store bad Hbad. unfold read_itch_hdf5.
    now rewrite (existsb_invalid _ Hbad).
Qed.

Lemma read_back_selects_bucket_and_chunks_witness :
  read_itch_hdf5 nat int_of_digits
    (keyed_store [ ("trades", 0, [1; 2]%nat); ("add_orders", 0, [3]%nat);
                   ("trades", 1, [4]%nat); ("trades", 12345, [5]%nat) ])
    "trades" (Some [1; 12345])
  = Returns [4; 5]%nat.
Proof.
  apply (read_back_selects_bucket_and_chunks nat int_of_digits
           [ ("trades", 0, [1; 2]%nat); ("add_orders", 0, [3]%nat);
             ("trades", 1, [4]%nat); ("trades", 12345, [5]%nat) ]
           "trades" (Some [1; 12345])).
  - exact int_of_digits_reads.
  - cbn. auto 10.
  - repeat constructor; cbn; auto 10; discriminate.
Defined.

(** ** Counting the stored messages *)

Lemma dict_get_set_same {V : Type} (k : string) (v : V) (d : list (string * V)) :
  dict_get k (dict_set k v d) = Some v.
Proof.
  induction d as [|[k' v'] d IH]; cbn [dict_set dict_get].
  - now rewrite String.eqb_refl.
  - destruct (String.eqb k k') eqn:E; cbn [dict_get].
    + now rewrite String.eqb_refl.
    + now rewrite E.
Qed.

Lemma dict_get_set_other {V : Type} (k k' : string) (v : V)
  (d : list (string * V)) :
  k' <> k -> dict_get k' (dict_set k v d) = dict_get k' d.
Proof.
  intros Hne. induction d as [|[k0 v0] d IH]; cbn [dict_set dict_get].
  - destruct (String.eqb_spec k' k); [contradiction | reflexivity].
  - destruct (String.eqb_spec k k0) as [->|_]; cbn [dict_get].
    + destruct (String.eqb_spec k' k0); [contradiction | reflexivity].
    + destruct (String.eqb k' k0); [reflexivity | exact IH].
Qed.

Lemma sum_values_set (k : string) (n : Z) (d : list (string * Z)) :
  sum_values (dict_set k (dict_get_default k 0 d + n) d) = sum_values d + n.
Proof.
  unfold sum_values, dict_get_default.
  induction d as [|[k' v'] d IH]; cbn [dict_set dict_get map snd fold_right].
  - lia.
  - destruct (String.eqb k k'); cbn [map snd fold_right]; [lia|].
    rewrite IH. lia.
Qed.

Lemma length_concat_cons {A : Type} (l : list A) (ls : list (list A)) :
  Z.of_nat (List.length (List.concat (l :: ls))) =
  Z.of_nat (List.length l) + Z.of_nat (List.length (List.concat ls)).
Proof.
  cbn [List.concat]. rewrite length_app. lia.
Qed.

(** The loop of lines 136-143, from any starting total and counts. *)
Lemma analyze_fold (row : Type) (store : list (string * list row)) :
  forall (total : Z) (counts : list (string * Z)),
  let r :=
    fold_left
      (fun acc kv =>
         let '(total, counts) := acc in
         let data_type := data_type_of_key (fst kv) in
         let n := Z.of_nat (List.length (snd kv)) in
         (total + n,
          dict_set data_type (dict_get_default data_type 0 counts + n) counts))
      store (total, counts) in
  fst r = total + Z.of_nat (List.length (List.concat (map snd store))) /\
  sum_values (snd r)
    = sum_values counts + Z.of_nat (List.length (List.concat (map snd store))) /\
  forall k,
    dict_get_default k 0 (snd r) =
    dict_get_default k 0 counts +
    Z.of_nat (List.length (List.concat (map snd
      (filter (fun kv => String.eqb (data_type_of_key (fst kv)) k) store)))).
Proof.
  induction store as [|[key df] store IH]; intros total counts.
  - cbn [fold_left fst snd map filter List.concat List.length Z.of_nat].
    cbv zeta. cbn [fst snd]. rewrite !Z.add_0_r. repeat split.
    intros k. now rewrite Z.add_0_r.
  - cbn [fold_left fst snd map filter].
    specialize (IH (total + Z.of_nat (List.length df))
                  (dict_set (data_type_of_key key)
                     (dict_get_default (data_type_of_key key) 0 counts
                      + Z.of_nat (List.length df)) counts)).
    cbv zeta in IH. destruct IH as (H1 & H2 & H3).
    cbv zeta. rewrite length_concat_cons. repeat split.
    + rewrite H1. lia.
    + rewrite H2, sum_values_set. lia.
    + intros k. rewrite H3.
      destruct (String.eqb_spec (data_type_of_key key) k) as [<-|Hne].
      * cbn [map snd]. rewrite length_concat_cons.
        unfold dict_get_default at 1. rewrite dict_get_set_same. lia.
      * unfold dict_get_default at 1.
        rewrite dict_get_set_other by congruence.
        fold (dict_get_default k 0 counts). lia.
Qed.

Lemma analyze_counts_add_up_aux (row : Type)
  (store : list (string * list row)) :
  let r := analyze_itch_file row store in
  fst (fst r) = map fst store /\
  snd (fst r) = Z.of_nat (List.length (List.concat (map snd store))) /\
  sum_values (snd r) = snd (fst r) /\
  forall k,
    dict_get_default k 0 (snd r) =
    Z.of_nat (List.length (List.concat (map snd
      (filter (fun kv => String.eqb (data_type_of_key (fst kv)) k) store)))).
Proof.
  pose proof (analyze_fold row store 0 []) as H. cbv zeta in H.
  unfold analyze_itch_file.
  destruct (fold_left _ store (0, [])) as [total counts].
  cbn [fst snd] in *. destruct H as (H1 & H2 & H3).
  repeat split.
  - exact H1.
  - rewrite H2, H1. reflexivity.
  - intros k. rewrite H3. reflexivity.
Qed.

(** X16.  In [analyze_hdf5_files], for any store, [total_messages] is the
    number of rows of all frames and equals the sum of the values of
    [message_counts]; the count kept under a name is the number of rows of
    the frames whose key gives that name (second path component, or
    'unknown'). *)
Theorem analyze_counts_add_up (row : Type) (store : list (string * list row)) :
  let r := analyze_itch_file row store in
  fst (fst r) = map fst store /\
  snd (fst r) = Z.of_nat (List.length (List.concat (map snd store))) /\
  sum_values (snd r) = snd (fst r) /\
  forall k,
    dict_get_default k 0 (snd r) =
    Z.of_nat (List.length (List.concat (map snd
      (filter (fun kv => String.eqb (data_type_of_key (fst kv)) k) store)))).
Proof.
  exact (analyze_counts_add_up_aux row store).
Qed.

Lemma filter_keyed_store (row : Type) (b : string)
  (entries : list (string * Z * list row)) :
  Forall parser_entry entries ->
  map snd (filter (fun kv => String.eqb (data_type_of_key (fst kv)) b)
             (keyed_store entries))
  = map snd (filter (fun e => String.eqb (fst (fst e)) b) entries).
Proof.
  induction 1 as [|[[b' n] rows] entries [Hb _] _ IH]; [reflexivity|].
  cbn [fst snd] in Hb. cbn [keyed_store map filter fst snd].
  rewrite (key_data_type b' n Hb).
  destruct (String.eqb b' b); cbn [map snd]; unfold keyed_store in IH;
    now rewrite IH.
Qed.

(** X17.  On a store written by the parser, [analyze_hdf5_files] counts
    under each of the nine bucket names exactly the rows of that bucket's
    tables, over all chunks, and files nothing under 'unknown'. *)
Theorem analyze_counts_each_bucket (row : Type)
  (entries : list (string * Z * list row)) (b : string) :
  Forall parser_entry entries ->
  In b valid_data_types ->
  let counts := snd (analyze_itch_file row (keyed_store entries)) in
  dict_get_default b 0 counts
    = rows_where (fun e => String.eqb (fst (fst e)) b) entries /\
  dict_get_default "unknown" 0 counts = 0.
Proof.
  intros Hall Hb counts.
  destruct (analyze_counts_add_up_aux row (keyed_store entries)) as (_ & _ & _ & H).
  subst counts. split.
  - rewrite H, filter_keyed_store by assumption. reflexivity.
  - rewrite H, filter_keyed_store by assumption.
    replace (filter (fun e => String.eqb (fst (fst e)) "unknown") entries)
      with (@nil (string * Z * list row)); [reflexivity|].
    symmetry. clear H. induction Hall as [|[[b' n] rows] entries [Hb' _] _ IH];
      [reflexivity|].
    cbn [filter fst snd] in *.
    destruct (String.eqb_spec b' "unknown") as [->|_]; [|exact IH].
    exfalso. unfold valid_data_types in Hb'. cbn [In] in Hb'.
    intuition discriminate.
Qed.

Lemma analyze_counts_each_bucket_witness :
  let counts :=
    snd (analyze_itch_file nat
           (keyed_store [ ("trades", 0, [1; 2]%nat); ("add_orders", 0, [3]%nat);
                          ("trades", 1, [4]%nat) ])) in
  dict_get_default "trades" 0 counts = 3 /\
  dict_get_default "unknown" 0 counts = 0.
Proof.
  apply (analyze_counts_each_bucket nat
           [ ("trades", 0, [1; 2]%nat); ("add_orders", 0, [3]%nat);
             ("trades", 1, [4]%nat) ] "trades").
  - repeat constructor; cbn; auto 10; discriminate.
  - cbn. auto 10.
Defined.

(** ** The keys a run writes *)

Lemma hdf_key_injective (b b' : string) (n n' : Z) :
  In b valid_data_types -> In b' valid_data_types ->
  0 <= n -> 0 <= n' ->
  hdf_key b n = hdf_key b' n' -> b = b' /\ n = n'.
Proof.
  intros Hb Hb' Hn Hn' E. split.
  - rewrite <- (key_data_type b n Hb), <- (key_data_type b' n' Hb'). now rewrite E.
  - pose proof (int_of_key_chunk int_of_digits b n int_of_digits_reads Hn) as H.
    pose proof (int_of_key_chunk int_of_digits b' n' int_of_digits_reads Hn') as H'.
    rewrite E in H. congruence.
Qed.

Lemma save_chunk_tables_keyed (md : buffers) (st : hdf_store) (n : Z) :
  well_keyed md -> Forall tables_keyed st ->
  Forall tables_keyed (_save_chunk_to_store st md n).
Proof.
  intros Hk Hst. unfold _save_chunk_to_store. apply Forall_app. split; [exact Hst|].
  constructor; [|constructor]. unfold tables_keyed. cbn [tables]. split.
  - apply filter_keys_nodup. now apply well_keyed_nodup.
  - intros k Hin. apply filter_keys_incl in Hin. unfold well_keyed in Hk.
    rewrite Hk in Hin. exact Hin.
Qed.

Lemma handle_message_tables_keyed (c : Z) (p : bytes) (s : run_state) :
  well_keyed (message_data s) /\ Forall tables_keyed (store s) ->
  well_keyed (message_data (handle_message c p s)) /\
  Forall tables_keyed (store (handle_message c p s)).
Proof.
  intros [Hk Hst]. unfold handle_message.
  assert (exists md, match truthy (_parse_message p) with
                     | Some r => _categorize_message r (message_data s)
                     | None => Ok (message_data s)
                     end = Ok md /\ well_keyed md) as (md & -> & Hmd).
  { destruct (truthy (_parse_message p)); [now apply categorize_ok | eauto]. }
  destruct (c =? 0); [now split|].
  destruct (_ =? 0); cbn [message_data store]; [|now split].
  split; [now apply well_keyed_clear | now apply save_chunk_tables_keyed].
Qed.

Lemma put_keys_snoc (st : hdf_store) (fl : flush) :
  put_keys (st ++ [fl]) =
  put_keys st ++ map (fun kv => (fst kv, chunk_num fl)) (tables fl).
Proof.
  unfold put_keys. rewrite flat_map_app. cbn [flat_map]. now rewrite app_nil_r.
Qed.

(** Numbered flushes with keyed tables put every (bucket, chunk) pair once. *)
Lemma put_keys_nodup (st : hdf_store) :
  map chunk_num st = map Z.of_nat (seq 0 (List.length st)) ->
  Forall tables_keyed st ->
  NoDup (put_keys st) /\
  forall k n, In (k, n) (put_keys st) ->
              In k valid_data_types /\ 0 <= n < Z.of_nat (List.length st).
Proof.
  induction st as [|fl st IH] using rev_ind; intros Hnum Hkeyed.
  - split; [constructor | intros k n []].
  - rewrite length_app in Hnum. cbn [List.length] in Hnum.
    rewrite Nat.add_1_r, seq_S, !map_app in Hnum. cbn [map Nat.add] in Hnum.
    apply app_inj_tail in Hnum as [Hnum Hfl].
    apply Forall_app in Hkeyed as [Hst Hflk].
    inversion Hflk as [|? ? [Hnd Hincl] _]; subst.
    destruct (IH Hnum Hst) as [IHnd IHin].
    rewrite put_keys_snoc, length_app. cbn [List.length]. split.
    + apply NoDup_app.
      * exact IHnd.
      * rewrite <- (map_map fst (fun k => (k, chunk_num fl))).
        apply NoDup_map_NoDup_ForallPairs; [|exact Hnd].
        intros x y _ _ E. now injection E.
      * intros [k n] Hin1 Hin2. apply IHin in Hin1 as [_ Hlt].
        apply in_map_iff in Hin2 as (kv & E & _). injection E as _ E. lia.
    + intros k n Hin. apply in_app_or in Hin as [Hin|Hin].
      * apply IHin in Hin as [H1 H2]. split; [exact H1 | lia].
      * apply in_map_iff in Hin as (kv & E & Hkv). injection E as <- <-.
        split; [apply Hincl; now apply in_map | lia].
Qed.

Lemma final_flush_tables_keyed (c : Z) (s s' : run_state) :
  well_keyed (message_data s) -> Forall tables_keyed (store s) ->
  final_flush c s = Ok s' -> Forall tables_keyed (store s').
Proof.
  intros Hk Hst. unfold final_flush.
  destruct (c =? 0); [discriminate|].
  destruct (negb _); intros [= <-]; [|exact Hst].
  cbn [store]. now apply save_chunk_tables_keyed.
Qed.



(** X19.  The key format round-trips through the three ways [utils.py]
    takes keys apart: for one of the nine buckets and a chunk number that is
    not negative (of any size, beyond four digits too), [key.split('/')[1]]
    is the bucket, [int(key.split('_')[-1])] is the chunk number although the
    bucket names contain underscores themselves, and [data_type in key] holds
    for a valid data type exactly when it is the bucket. *)
Theorem store_key_round_trip (py_int : string -> option Z)
  (b : string) (n : Z) :
  reads_digits py_int ->
  In b valid_data_types ->
  0 <= n ->
  data_type_of_key (hdf_key b n) = b /\
  py_int (last (split_on "_" (hdf_key b n)) "") = Some n /\
  forall d, In d valid_data_types ->
            (is_substring d (hdf_key b n) = true <-> d = b).
Proof.
  intros Hint Hb Hn. split; [now apply key_data_type|].
  split; [now apply int_of_key_chunk|].
  intros d Hd. rewrite (key_contains d b n Hd Hb Hn).
  rewrite String.eqb_eq. split; congruence.
Qed.

Lemma store_key_round_trip_witness :
  data_type_of_key "/order_executions/chunk_12345" = "order_executions" /\
  int_of_digits (last (split_on "_" "/order_executions/chunk_12345") "")
    = Some 12345 /\
  (is_substring "order_cancels" "/order_executions/chunk_12345" = true <->
   "order_cancels" = "order_executions").
Proof.
  destruct (store_key_round_trip int_of_digits "order_executions" 12345)
    as (H1 & H2 & H3).
  - exact int_of_digits_reads.
  - cbn. auto 10.
  - lia.
  - split; [exact H1|]. split; [exact H2|].
    apply (H3 "order_cancels"). cbn. auto 10.
Defined.
